(** * FoodShare: the food-listing lifecycle of the Express/Mongoose backend

    A shallow embedding of [backend/models/Food.js], the Notification model,
    [backend/routes/food.js] and the notifications router, and the properties
    of the listing lifecycle proved about them.

    Conventions of the embedding.
    - The Food collection is a finite map from [_id] to the document's other
      paths: the [_id] of a listing is its key, unique as in MongoDB.  The
      Notification collection, which is only appended to and updated in
      bulk, is the list of its documents in insertion order.
    - An [ObjectId] is a number; fresh ones come from a counter kept next to
      the collections.  Two ids have the same [toString()] exactly when they
      are equal, so the handlers' string comparisons are [N.eqb].
    - A JavaScript string is a [string] of code units below 256.
    - JavaScript numbers are an interface, [JSNumber]: a type [Number]
      with [parseFloat], [Number(...)] and [isNaN].  The handlers only
      parse, store and return coordinates.
    - A route handler is a [Task]: a tree of atomic store operations, one per
      [await], ended by the response.  [run] executes a task without
      interruption; [interleave] lets two tasks take turns at their awaits.
    - [Date.now()] is the clock kept next to the collections.  Time passes
      between requests, and inside [Food.create], which reads the clock
      when it builds the document and again when it saves it.
    - A response is its status code and JSON body.  The error names of the
      specification are the codes the handlers send: NotFound 404,
      Forbidden 403 (400 with its own message for a claim of one's own
      listing), InvalidState 400, ValidationError 400, ServerError 500.
    - The User collection is read by these routes and never written by
      them; it is a parameter, [Users].  [populate] resolves a reference
      against it and leaves null for a reference that no user has.  Where a
      handler only sends the populated document, the response is modelled
      with the reference itself; where it reads the populated path, as the
      claim handler does, the lookup is modelled.  Socket.IO pushes write
      nothing to the stores and are left out. *)

From Stdlib Require Import ZArith String Ascii Sorted Permutation Lia.
From stdpp Require Import gmap strings list sorting fin_maps.
From stdpp Require Import pretty.

Open Scope Z_scope.

(** ** JavaScript strings *)

Module JS.

(** White space and line terminators that [String.prototype.trim] strips,
    among the code units below 256: TAB, LF, VT, FF, CR, SP, NBSP. *)
Definition is_whitespace (c : ascii) : bool :=
  let n := Ascii.N_of_ascii c in
  ((9 <=? n)%N && (n <=? 13)%N) || (n =? 32)%N || (n =? 160)%N.

Fixpoint trimStart (s : string) : string :=
  match s with
  | EmptyString => EmptyString
  | String c s' => if is_whitespace c then trimStart s' else s
  end.

Fixpoint trimEnd (s : string) : string :=
  match s with
  | EmptyString => EmptyString
  | String c s' =>
      match trimEnd s' with
      | EmptyString => if is_whitespace c then EmptyString else String c EmptyString
      | t => String c t
      end
  end.

Definition trim (s : string) : string := trimEnd (trimStart s).

(** Truthiness of a string that may be [undefined]: [!s] holds for
    [undefined] and for the empty string. *)
Definition truthy (s : option string) : bool :=
  match s with
  | None => false
  | Some EmptyString => false
  | Some _ => true
  end.

(** The double quote, for template literals that contain one. *)
Definition dquote : string := String (Ascii.ascii_of_N 34) EmptyString.

End JS.

(** ** JavaScript numbers *)

(** [parseFloat(s)], [Number(s)] and [isNaN(x)]. *)
Class JSNumber := {
  Number : Type;
  parseFloat : string -> Number;
  toNumber : string -> Number;
  isNaN : Number -> bool
}.

(** ** The data model *)

Definition ObjectId := N.
Bind Scope N_scope with ObjectId.

(** [status]: enum ['available', 'claimed', 'completed']. *)
Inductive Status := available | claimed | completed.

#[global] Instance Status_eq_dec : EqDecision Status.
Proof. solve_decision. Defined.

(** The enum validator of the [status] path: a string is accepted when it is
    one of the three values. *)
Definition Status_of_string (s : string) : option Status :=
  if String.eqb s "available" then Some available
  else if String.eqb s "claimed" then Some claimed
  else if String.eqb s "completed" then Some completed
  else None.

Definition Status_to_string (s : Status) : string :=
  match s with
  | available => "available"
  | claimed => "claimed"
  | completed => "completed"
  end.

(** A document of the Food collection (models/Food.js, with the
    [createdAt]/[updatedAt] pair of [timestamps: true]); its [_id] is the
    key it is stored under.  Dates are milliseconds since the epoch. *)
Module Food.
Record t `{JSNumber} := mk {
  name : string;
  description : string;
  photo : string;
  address : string;
  latitude : option Number;
  longitude : option Number;
  status : Status;
  donor : ObjectId;
  claimedBy : option ObjectId;
  expiresAt : Z;
  createdAt : Z;
  updatedAt : Z
}.
Arguments mk {_}.

(** [food.status = s] on a loaded document. *)
Definition set_status `{JSNumber} (s : Status) (f : t) : t :=
  mk (name f) (description f) (photo f) (address f) (latitude f)
     (longitude f) s (donor f) (claimedBy f) (expiresAt f) (createdAt f)
     (updatedAt f).

(** [food.claimedBy = c]. *)
Definition set_claimedBy `{JSNumber} (c : option ObjectId) (f : t) : t :=
  mk (name f) (description f) (photo f) (address f) (latitude f)
     (longitude f) (status f) (donor f) c (expiresAt f) (createdAt f)
     (updatedAt f).

Definition set_updatedAt `{JSNumber} (u : Z) (f : t) : t :=
  mk (name f) (description f) (photo f) (address f) (latitude f)
     (longitude f) (status f) (donor f) (claimedBy f) (expiresAt f)
     (createdAt f) u.
End Food.

(** [type]: enum of the Notification schema. *)
Inductive NotificationType :=
  claim_request | food_shared | claim_accepted | food_completed.

(** A document of the Notification collection. *)
Module Notification.
Record t := mk {
  _id : ObjectId;
  user : ObjectId;
  type : NotificationType;
  message : string;
  food : option ObjectId;
  fromUser : option ObjectId;
  read : bool;
  createdAt : Z;
  updatedAt : Z
}.

Definition set_read (r : bool) (u : Z) (n : t) : t :=
  mk (_id n) (user n) (type n) (message n) (food n) (fromUser n) r
     (createdAt n) u.
End Notification.

(** A user as the routes see one: [req.user], which the [protect]
    middleware hands to a handler, and a populated reference, which carries
    the paths [_id], [name] and [avatar]. *)
Module User.
Record t := mk { _id : ObjectId; name : string; avatar : string }.
End User.

(** The User collection, each document under its [_id].  The food, users
    and notifications routers only read it. *)
Class Users := users : gmap ObjectId User.t.

(** [.populate(path, 'name avatar')] on a reference [ref]: the [_id], name
    and avatar of the user stored under [ref], or null when there is
    none. *)
Definition populate `{Users} (ref : ObjectId) : option User.t :=
  (fun u => User.mk ref (User.name u) (User.avatar u)) <$> users !! ref.

(** [req.body] of the food routes: every schema path the body may carry.
    Text fields arrive as strings (multipart form fields), references as
    ids, [claimedBy] possibly as an explicit null. *)
Module Body.
Record t := mk {
  name : option string;
  description : option string;
  photo : option string;
  address : option string;
  latitude : option string;
  longitude : option string;
  status : option string;
  donor : option ObjectId;
  claimedBy : option (option ObjectId);
  expiresAt : option Z
}.

Definition empty : t := mk None None None None None None None None None None.
End Body.

(** ** Responses *)

(** What [res.json] sends. *)
Inductive Json `{JSNumber} :=
| JMessage (message : string)
| JFood (food : ObjectId * Food.t)
| JFoods (foods : list (ObjectId * Food.t))
| JNull
| JNotifications (notifications : list Notification.t) (unreadCount : nat).
Arguments JMessage {_}.
Arguments JFood {_}.
Arguments JFoods {_}.
Arguments JNull {_}.
Arguments JNotifications {_}.

(** [res.status(code).json(body)]; [res.json(body)] sends 200. *)
Record Response `{JSNumber} := res { code : nat; json : Json }.
Arguments res {_}.

(** ** The stores *)

Record DB `{JSNumber} := mkDB {
  foods : gmap ObjectId Food.t;
  notifications : list Notification.t;
  fresh : ObjectId;   (* the next ObjectId to hand out *)
  clock : Z           (* Date.now() *)
}.
Arguments mkDB {_}.

(** ** Tasks: handlers as trees of awaited store operations *)

(** [Await op k] performs the store operation [op] atomically and continues
    with [k] on its result; [Throw] is an exception on its way to the
    handler's [catch]. *)
Inductive Task (S R : Type) : Type :=
| Ret (r : R)
| Throw
| Await {A : Type} (op : S -> S * A) (k : A -> Task S R).
Arguments Ret {S R}.
Arguments Throw {S R}.
Arguments Await {S R A}.

Notation "'await' x := op 'in' k" := (Await op (fun x => k))
  (at level 10, x name, op at level 100, k at level 200, only parsing).

(** [try { t } catch (error) { res.status(500)... }]. *)
Fixpoint catch {S R} (t : Task S R) (e : R) : Task S R :=
  match t with
  | Ret r => Ret r
  | Throw => Ret e
  | Await op k => Await op (fun a => catch (k a) e)
  end.

(** One atomic step: the task's next store operation. *)
Definition step {S R} (t : Task S R) (s : S) : S * Task S R :=
  match t with
  | Await op k => let (s', a) := op s in (s', k a)
  | _ => (s, t)
  end.

(** A request served with no other request in between. *)
Fixpoint run {S R} (t : Task S R) (s : S) : S * option R :=
  match t with
  | Ret r => (s, Some r)
  | Throw => (s, None)
  | Await op k => let (s', a) := op s in run (k a) s'
  end.

(** Two requests in flight: [sched] says whose turn each atomic step is
    ([true] for the first task). *)
Fixpoint interleave {S R} (sched : list bool) (t1 t2 : Task S R) (s : S)
  : S * Task S R * Task S R :=
  match sched with
  | [] => (s, t1, t2)
  | true :: sched' => let (s', t1') := step t1 s in interleave sched' t1' t2 s'
  | false :: sched' => let (s', t2') := step t2 s in interleave sched' t1 t2' s'
  end.

(** The response a finished task has sent. *)
Definition response {S R} (t : Task S R) : option R :=
  match t with
  | Ret r => Some r
  | _ => None
  end.

Section FoodShare.

Context `{JSNumber} `{Users}.

Local Abbreviation Food := Food.t.
Local Abbreviation Doc := (ObjectId * Food.t)%type.
Local Abbreviation Store := DB.
Local Abbreviation Reply := Response.
Local Abbreviation Handler := (Task DB Response).

(** A store operation: what one awaited Mongoose call does to the stores. *)
Definition Op (A : Type) : Type := Store -> Store * A.

(** *** The Food schema: setters, casts and validators *)

(** [name]: required, trim, maxlength 100. *)
Definition cast_name (s : string) : option string :=
  let s := JS.trim s in
  if String.eqb s EmptyString || (100 <? String.length s)%nat then None else Some s.

(** [description]: trim, maxlength 500. *)
Definition cast_description (s : string) : option string :=
  let s := JS.trim s in
  if (500 <? String.length s)%nat then None else Some s.

(** [address]: required, trim. *)
Definition cast_address (s : string) : option string :=
  let s := JS.trim s in
  if String.eqb s EmptyString then None else Some s.

(** [latitude], [longitude]: a Number path refuses NaN (CastError). *)
Definition cast_number (x : Number) : option Number :=
  if isNaN x then None else Some x.

(** A Number path set from a string: the empty string casts to null,
    anything else goes through [Number(...)]. *)
Definition cast_number_string (s : string) : option (option Number) :=
  if String.eqb s EmptyString then Some None
  else Some <$> cast_number (toNumber s).

(** A path that the data may leave out. *)
Definition cast_optional {A B} (c : A -> option B) (x : option A) : option (option B) :=
  match x with
  | None => Some None
  | Some a => Some <$> c a
  end.

(** The default of [expiresAt]: [Date.now() + 24 * 60 * 60 * 1000]. *)
Definition expiresAt_default (now : Z) : Z := now + 24 * 60 * 60 * 1000.

(** *** Food: store operations *)

(** [Food.findById(id)]. *)
Definition Food_findById (id : ObjectId) : Op (option Food) :=
  fun db => (db, foods db !! id).

(** [.sort({ createdAt: -1 })]: newest first. *)
Definition newest_first (a b : Doc) : Prop :=
  Food.createdAt b.2 <= Food.createdAt a.2.

#[global] Instance newest_first_dec a b : Decision (newest_first a b).
Proof. unfold newest_first. apply _. Defined.

#[global] Instance newest_first_total : Total newest_first.
Proof. intros a b. unfold newest_first. lia. Qed.

#[global] Instance newest_first_transitive : Transitive newest_first.
Proof. intros a b c. unfold newest_first. lia. Qed.

(** [Food.find(filter).sort({ createdAt: -1 })]. *)
Definition Food_find (P : Food -> Prop) `{forall f, Decision (P f)} : Op (list Doc) :=
  fun db =>
    (db, merge_sort newest_first (filter (fun d => P d.2) (map_to_list (foods db)))).

(** What the create handler passes to [Food.create]. *)
Record FoodData := mkFoodData {
  data_name : string;
  data_description : string;
  data_address : string;
  data_latitude : option Number;
  data_longitude : option Number;
  data_donor : ObjectId;
  data_photo : option string
}.

(** [new Food(data)] at time [built], validated and stamped by its
    [save()] at time [saved]: the setters and casts run on the given paths;
    the defaults fill [photo], [status], [claimedBy] and, from the
    [Date.now()] of the construction, [expiresAt]; [timestamps: true] sets
    [createdAt] and [updatedAt] when the document is saved.  [None] is a
    ValidationError. *)
Definition Food_new (data : FoodData) (built saved : Z) : option Food :=
  name ← cast_name (data_name data);
  description ← cast_description (data_description data);
  address ← cast_address (data_address data);
  latitude ← cast_optional cast_number (data_latitude data);
  longitude ← cast_optional cast_number (data_longitude data);
  Some (Food.mk name description (default EmptyString (data_photo data))
                address latitude longitude available (data_donor data) None
                (expiresAt_default built) saved saved).

(** [Food.create(data)]: build the document, then validate, stamp and
    insert it under a fresh [_id].  The document is built when the call is
    made and saved [lag] milliseconds later, which is where the clock then
    stands.  [None] is the rejected promise of a failed validation. *)
Definition Food_create (data : FoodData) (lag : N) : Op (option Doc) :=
  fun db =>
    let built := clock db in
    let saved := clock db + Z.of_N lag in
    match Food_new data built saved with
    | Some doc =>
        (mkDB (<[fresh db := doc]> (foods db)) (notifications db)
              (N.succ (fresh db)) saved,
         Some (fresh db, doc))
    | None => (db, None)
    end.

(** The paths a handler assigns on a loaded document. *)
Inductive Path := path_status | path_claimedBy.

Definition copy_path (src : Food) (p : Path) (dst : Food) : Food :=
  match p with
  | path_status => Food.set_status (Food.status src) dst
  | path_claimedBy => Food.set_claimedBy (Food.claimedBy src) dst
  end.

(** [doc.save()] on the document loaded under [_id]: the modified paths
    are written to the stored document of that [_id], with a new
    [updatedAt]; the promise is rejected when no such document is stored
    any more. *)
Definition Food_save (_id : ObjectId) (doc : Food) (modified : list Path)
  : Op (option Food) :=
  fun db =>
    match foods db !! _id with
    | Some stored =>
        let stored' :=
          Food.set_updatedAt (clock db) (foldr (copy_path doc) stored modified) in
        (mkDB (<[_id := stored']> (foods db)) (notifications db)
              (fresh db) (clock db),
         Some (Food.set_updatedAt (clock db) doc))
    | None => (db, None)
    end.

(** [doc.deleteOne()] on the document loaded under [_id]. *)
Definition Food_deleteOne (_id : ObjectId) : Op unit :=
  fun db =>
    (mkDB (delete _id (foods db)) (notifications db) (fresh db) (clock db),
     tt).

(** An update document after casting: the paths to [$set]. *)
Record Update := mkUpdate {
  set_name : option string;
  set_description : option string;
  set_photo : option string;
  set_address : option string;
  set_latitude : option (option Number);
  set_longitude : option (option Number);
  set_status : option Status;
  set_donor : option ObjectId;
  set_claimedBy : option (option ObjectId);
  set_expiresAt : option Z
}.

(** Casting and validating an update ([runValidators: true]): each path
    present goes through its setter and validators; one failure rejects the
    whole update. *)
Definition castUpdate (b : Body.t) : option Update :=
  name ← cast_optional cast_name (Body.name b);
  description ← cast_optional cast_description (Body.description b);
  address ← cast_optional cast_address (Body.address b);
  latitude ← cast_optional cast_number_string (Body.latitude b);
  longitude ← cast_optional cast_number_string (Body.longitude b);
  status ← cast_optional Status_of_string (Body.status b);
  Some (mkUpdate name description (Body.photo b) address latitude longitude
                 status (Body.donor b) (Body.claimedBy b) (Body.expiresAt b)).

Definition applyUpdate (u : Update) (now : Z) (f : Food) : Food :=
  Food.mk (default (Food.name f) (set_name u))
          (default (Food.description f) (set_description u))
          (default (Food.photo f) (set_photo u))
          (default (Food.address f) (set_address u))
          (default (Food.latitude f) (set_latitude u))
          (default (Food.longitude f) (set_longitude u))
          (default (Food.status f) (set_status u))
          (default (Food.donor f) (set_donor u))
          (default (Food.claimedBy f) (set_claimedBy u))
          (default (Food.expiresAt f) (set_expiresAt u))
          (Food.createdAt f)
          now.

(** [Food.findByIdAndUpdate(id, updates, { new: true, runValidators: true })]:
    [None] is a rejected promise, [Some None] the null of a missing
    document. *)
Definition Food_findByIdAndUpdate (id : ObjectId) (update : Body.t)
  : Op (option (option Food)) :=
  fun db =>
    match castUpdate update with
    | None => (db, None)
    | Some u =>
        match foods db !! id with
        | None => (db, Some None)
        | Some f =>
            let f' := applyUpdate u (clock db) f in
            (mkDB (<[id := f']> (foods db)) (notifications db) (fresh db)
                  (clock db),
             Some (Some f'))
        end
    end.

(** *** Notification: store operations *)

(** [Notification.create({...})]; [message] is required. *)
Definition Notification_create (user : ObjectId) (type : NotificationType)
    (message : string) (food fromUser : option ObjectId)
  : Op (option Notification.t) :=
  fun db =>
    if String.eqb message EmptyString then (db, None)
    else
      let n := Notification.mk (fresh db) user type message food fromUser
                               false (clock db) (clock db) in
      (mkDB (foods db) (notifications db ++ [n]) (N.succ (fresh db)) (clock db),
       Some n).

Definition newest_notification_first (a b : Notification.t) : Prop :=
  Notification.createdAt b <= Notification.createdAt a.

#[global] Instance newest_notification_first_dec a b :
  Decision (newest_notification_first a b).
Proof. unfold newest_notification_first. apply _. Defined.

(** [Notification.find({ user }).sort({ createdAt: -1 }).limit(50)]. *)
Definition Notification_find (user : ObjectId) : Op (list Notification.t) :=
  fun db =>
    (db,
     take 50 (merge_sort newest_notification_first
                (filter (fun n => Notification.user n = user) (notifications db)))).

(** The filter [{ user, read: false }]. *)
Definition unread_of (user : ObjectId) (n : Notification.t) : Prop :=
  Notification.user n = user /\ Notification.read n = false.

#[global] Instance unread_of_dec user n : Decision (unread_of user n).
Proof. unfold unread_of. apply _. Defined.

(** [Notification.countDocuments({ user, read: false })]. *)
Definition Notification_countDocuments (user : ObjectId) : Op nat :=
  fun db => (db, length (filter (unread_of user) (notifications db))).

(** [Notification.updateMany({ user, read: false }, { read: true })]. *)
Definition Notification_updateMany (user : ObjectId) : Op unit :=
  fun db =>
    (mkDB (foods db)
          ((fun n => if decide (unread_of user n)
                     then Notification.set_read true (clock db) n else n)
             <$> notifications db)
          (fresh db) (clock db),
     tt).

(** *** routes/food.js *)

Definition server_error : Reply := res 500 (JMessage "Server error").

(** GET /api/food: all available listings. *)
Definition listAvailable : Handler :=
  catch
    (await foods := Food_find (fun f => Food.status f = available) in
     Ret (res 200 (JFoods foods)))
    server_error.

(** GET /api/food/all: all listings. *)
Definition listAll : Handler :=
  catch
    (await foods := Food_find (fun _ => True) in
     Ret (res 200 (JFoods foods)))
    server_error.

(** GET /api/food/:id. *)
Definition get (id : ObjectId) : Handler :=
  catch
    (await food := Food_findById id in
     match food with
     | None => Ret (res 404 (JMessage "Food listing not found"))
     | Some food => Ret (res 200 (JFood (id, food)))
     end)
    server_error.

(** The object [foodData] of the create handler; [file] is
    [req.file.filename] when a photo came along. *)
Definition foodData (user : User.t) (body : Body.t) (file : option string)
  : FoodData :=
  let name := Body.name body in
  let description := Body.description body in
  let address := Body.address body in
  let latitude := Body.latitude body in
  let longitude := Body.longitude body in
  mkFoodData
    (default EmptyString name)
    (if JS.truthy description then default EmptyString description
     else EmptyString)
    (default EmptyString address)
    (if JS.truthy latitude
     then Some (parseFloat (default EmptyString latitude)) else None)
    (if JS.truthy longitude
     then Some (parseFloat (default EmptyString longitude)) else None)
    (User._id user)
    ((fun filename => "/uploads/" ++ filename)%string <$> file).

(** POST /api/food.  [lag] is the time that [Food.create] takes from
    building the document to saving it. *)
Definition create (user : User.t) (body : Body.t) (file : option string)
    (lag : N) : Handler :=
  catch
    (if negb (JS.truthy (Body.name body)) || negb (JS.truthy (Body.address body))
     then
       Ret (res 400 (JMessage "Please provide food name and address"))
     else
       await created := Food_create (foodData user body file) lag in
       match created with
       | None => Throw
       | Some food => Ret (res 201 (JFood food))
       end)
    (res 500 (JMessage "Server error creating food listing")).

(** The object [updates] of the update handler: [{ ...req.body }], with
    [photo] replaced when a file came along. *)
Definition updates (body : Body.t) (file : option string) : Body.t :=
  match file with
  | Some filename =>
      Body.mk (Body.name body) (Body.description body)
              (Some ("/uploads/" ++ filename)%string)
              (Body.address body) (Body.latitude body)
              (Body.longitude body) (Body.status body)
              (Body.donor body) (Body.claimedBy body)
              (Body.expiresAt body)
  | None => body
  end.

(** PUT /api/food/:id. *)
Definition update (user : User.t) (id : ObjectId) (body : Body.t)
    (file : option string) : Handler :=
  catch
    (await food := Food_findById id in
     match food with
     | None => Ret (res 404 (JMessage "Food listing not found"))
     | Some food =>
         if negb (Food.donor food =? User._id user)%N then
           Ret (res 403 (JMessage "Not authorized to update this listing"))
         else
           await updated := Food_findByIdAndUpdate id (updates body file) in
           match updated with
           | None => Throw
           | Some None => Ret (res 200 JNull)
           | Some (Some food) => Ret (res 200 (JFood (id, food)))
           end
     end)
    server_error.

(** DELETE /api/food/:id. *)
Definition deleteFood (user : User.t) (id : ObjectId) : Handler :=
  catch
    (await food := Food_findById id in
     match food with
     | None => Ret (res 404 (JMessage "Food listing not found"))
     | Some food =>
         if negb (Food.donor food =? User._id user)%N then
           Ret (res 403 (JMessage "Not authorized to delete this listing"))
         else
           await _ := Food_deleteOne id in
           Ret (res 200 (JMessage "Food listing removed"))
     end)
    server_error.

(** The message of a claim_request notification:
    [`${req.user.name} claimed your "${food.name}"`]. *)
Definition claim_message (user : User.t) (food : Food) : string :=
  (User.name user ++ " claimed your " ++ JS.dquote ++ Food.name food
     ++ JS.dquote)%string.

(** The message of a food_completed notification:
    [`Pickup completed for "${food.name}"`]. *)
Definition completed_message (food : Food) : string :=
  ("Pickup completed for " ++ JS.dquote ++ Food.name food ++ JS.dquote)%string.

(** POST /api/food/:id/claim.  The listing is loaded with its donor
    populated, [food.donor] below; reading [food.donor._id] when the donor
    is null throws a TypeError, which the handler's [catch] answers. *)
Definition claim (user : User.t) (id : ObjectId) : Handler :=
  catch
    (await food := Food_findById id in
     match food with
     | None => Ret (res 404 (JMessage "Food listing not found"))
     | Some food =>
         let food_donor := populate (Food.donor food) in
         if negb (bool_decide (Food.status food = available)) then
           Ret (res 400 (JMessage "This food has already been claimed"))
         else
           match food_donor with
           | None => Throw
           | Some donor =>
               if (User._id donor =? User._id user)%N then
                 Ret (res 400 (JMessage "You cannot claim your own food"))
               else
                 let food := Food.set_status claimed food in
                 let food := Food.set_claimedBy (Some (User._id user)) food in
                 await saved := Food_save id food [path_status; path_claimedBy] in
                 match saved with
                 | None => Throw
                 | Some food =>
                     await notification :=
                       Notification_create
                         (User._id donor) claim_request (claim_message user food)
                         (Some id) (Some (User._id user)) in
                     match notification with
                     | None => Throw
                     | Some _ => Ret (res 200 (JFood (id, food)))
                     end
                 end
           end
     end)
    server_error.

(** PUT /api/food/:id/complete. *)
Definition complete (user : User.t) (id : ObjectId) : Handler :=
  catch
    (await food := Food_findById id in
     match food with
     | None => Ret (res 404 (JMessage "Food listing not found"))
     | Some food =>
         if negb (Food.donor food =? User._id user)%N then
           Ret (res 403 (JMessage "Only the donor can mark as completed"))
         else if negb (bool_decide (Food.status food = claimed)) then
           Ret (res 400 (JMessage "Food must be claimed before completing"))
         else
           let food := Food.set_status completed food in
           await saved := Food_save id food [path_status] in
           match saved with
           | None => Throw
           | Some food =>
               match Food.claimedBy food with
               | Some claimer =>
                   await notification :=
                     Notification_create
                       claimer food_completed (completed_message food)
                       (Some id) (Some (User._id user)) in
                   match notification with
                   | None => Throw
                   | Some _ => Ret (res 200 (JFood (id, food)))
                   end
               | None => Ret (res 200 (JFood (id, food)))
               end
           end
     end)
    server_error.

(** *** routes/notifications.js *)

(** GET /api/notifications. *)
Definition listNotifications (user : User.t) : Handler :=
  catch
    (await notifications := Notification_find (User._id user) in
     await unreadCount := Notification_countDocuments (User._id user) in
     Ret (res 200 (JNotifications notifications unreadCount)))
    server_error.

(** PUT /api/notifications/read-all. *)
Definition markAllRead (user : User.t) : Handler :=
  catch
    (await _ := Notification_updateMany (User._id user) in
     Ret (res 200 (JMessage "All notifications marked as read")))
    server_error.


(** *** The system as a whole *)

(** The requests of the API, as they are served: a create with the time its
    [Food.create] takes. *)
Inductive Request :=
| GetAvailable
| GetAll
| GetOne (id : ObjectId)
| PostFood (user : User.t) (body : Body.t) (file : option string) (lag : N)
| PutFood (user : User.t) (id : ObjectId) (body : Body.t) (file : option string)
| DeleteFood (user : User.t) (id : ObjectId)
| PostClaim (user : User.t) (id : ObjectId)
| PutComplete (user : User.t) (id : ObjectId)
| GetNotifications (user : User.t)
| PutReadAll (user : User.t).

Definition handler (r : Request) : Handler :=
  match r with
  | GetAvailable => listAvailable
  | GetAll => listAll
  | GetOne id => get id
  | PostFood user body file lag => create user body file lag
  | PutFood user id body file => update user id body file
  | DeleteFood user id => deleteFood user id
  | PostClaim user id => claim user id
  | PutComplete user id => complete user id
  | GetNotifications user => listNotifications user
  | PutReadAll user => markAllRead user
  end.

(** The stores a request leaves behind when it is served on its own. *)
Definition after (r : Request) (db : Store) : Store := (run (handler r) db).1.

(** Empty collections. *)
Definition init : Store := mkDB ∅ [] 0%N 0.

(** Time passes between requests. *)
Definition advance (dt : Z) (db : Store) : Store :=
  mkDB (foods db) (notifications db) (fresh db) (clock db + dt).

(** The states the system gets into from the empty collections by serving
    requests that satisfy [allowed], one after another, while time passes. *)
Inductive reachable_by (allowed : Request -> Prop) : Store -> Prop :=
| reachable_init : reachable_by allowed init
| reachable_advance db dt :
    reachable_by allowed db -> 0 <= dt -> reachable_by allowed (advance dt db)
| reachable_after db r :
    reachable_by allowed db -> allowed r -> reachable_by allowed (after r db).

(** The states any sequence of requests leads to. *)
Definition reachable : Store -> Prop := reachable_by (fun _ => True).

(** The states the system gets into from the state [db] in the same way. *)
Inductive reaches (allowed : Request -> Prop) (db : Store) : Store -> Prop :=
| reaches_here : reaches allowed db db
| reaches_advance db' dt :
    reaches allowed db db' -> 0 <= dt -> reaches allowed db (advance dt db')
| reaches_after db' r :
    reaches allowed db db' -> allowed r -> reaches allowed db (after r db').

(** The lifecycle invariant of the data model, for one listing and for the
    collection: a claimer is recorded exactly when the listing is claimed or
    completed. *)
Definition claimer_iff_claimed (f : Food) : Prop :=
  is_Some (Food.claimedBy f) <->
  (Food.status f = claimed \/ Food.status f = completed).

Definition lifecycle_invariant (db : Store) : Prop :=
  forall id f, foods db !! id = Some f -> claimer_iff_claimed f.

(** Requests that leave [status] and [claimedBy] to the claim and complete
    transitions: everything but an update whose body carries one of them. *)
Definition leaves_lifecycle_paths (r : Request) : Prop :=
  match r with
  | PutFood _ _ body _ => Body.status body = None /\ Body.claimedBy body = None
  | _ => True
  end.

(** Two requests that both take their first step before either takes its
    second: each loads before the other saves. *)
Definition both_load_first : list bool := [true; false; true; false; true; false].

(** The first request takes its three steps, then the second loads. *)
Definition one_after_the_other : list bool := [true; true; true; false].

(** [unreadCount] of GET /api/notifications. *)
Definition unreadCount (user : ObjectId) (db : Store) : nat :=
  (Notification_countDocuments user db).2.

(** *** What the transitions store and what the schema demands *)

(** The listing as a successful claim by [user] at time [now] stores it. *)
Definition claimed_by (user : User.t) (now : Z) (food : Food) : Food :=
  Food.set_updatedAt now
    (Food.set_claimedBy (Some (User._id user)) (Food.set_status claimed food)).

(** The claim_request notification of a successful claim. *)
Definition claim_notification (user : User.t) (id : ObjectId) (food : Food)
    (db : Store) : Notification.t :=
  Notification.mk (fresh db) (Food.donor food) claim_request
    (claim_message user food) (Some id) (Some (User._id user)) false
    (clock db) (clock db).

(** The listing as a successful completion at time [now] stores it. *)
Definition completed_at (now : Z) (food : Food) : Food :=
  Food.set_updatedAt now (Food.set_status completed food).

(** The food_completed notification sent to [claimer]. *)
Definition completed_notification (user : User.t) (id : ObjectId)
    (food : Food) (claimer : ObjectId) (db : Store) : Notification.t :=
  Notification.mk (fresh db) claimer food_completed (completed_message food)
    (Some id) (Some (User._id user)) false (clock db) (clock db).

(** What the Food schema demands of the data given to [Food.create]: a name
    of 1 to 100 characters and a non-empty address, both after trimming, a
    trimmed description of at most 500 characters, and coordinates that are
    not NaN. *)
Definition validates (data : FoodData) : bool :=
  negb (String.eqb (JS.trim (data_name data)) EmptyString)
  && (String.length (JS.trim (data_name data)) <=? 100)%nat
  && (String.length (JS.trim (data_description data)) <=? 500)%nat
  && negb (String.eqb (JS.trim (data_address data)) EmptyString)
  && negb (from_option isNaN false (data_latitude data))
  && negb (from_option isNaN false (data_longitude data)).

(** What it means for the paths of an update body to be written into a
    listing: every path the body carries holds the body's value afterwards
    (after the schema's trim for name, description and address, and the
    number cast for the coordinates), every path it leaves out is as
    before. *)
Definition written (b : Body.t) (old new : Food) : Prop :=
  Food.name new = from_option JS.trim (Food.name old) (Body.name b)
  /\ Food.description new
     = from_option JS.trim (Food.description old) (Body.description b)
  /\ Food.photo new = default (Food.photo old) (Body.photo b)
  /\ Food.address new = from_option JS.trim (Food.address old) (Body.address b)
  /\ Food.latitude new
     = from_option
         (fun s => if String.eqb s EmptyString then None else Some (toNumber s))
         (Food.latitude old) (Body.latitude b)
  /\ Food.longitude new
     = from_option
         (fun s => if String.eqb s EmptyString then None else Some (toNumber s))
         (Food.longitude old) (Body.longitude b)
  /\ match Body.status b with
     | Some s => Status_to_string (Food.status new) = s
     | None => Food.status new = Food.status old
     end
  /\ Food.donor new = default (Food.donor old) (Body.donor b)
  /\ Food.claimedBy new = default (Food.claimedBy old) (Body.claimedBy b)
  /\ Food.expiresAt new = default (Food.expiresAt old) (Body.expiresAt b).

(** *** routes/users.js *)

(** The counts of GET /api/users/stats. *)
Record Stats := mkStats {
  foodShared : nat;
  foodClaimed : nat;
  completedDonations : nat;
  completedPickups : nat;
  totalCompleted : nat
}.

(** What the users router sends. *)
Inductive UsersJson :=
| UStats (stats : Stats)
| UFoods (foods : list Doc)
| UMessage (message : string).

Record UsersResponse := users_res { users_code : nat; users_json : UsersJson }.

(** [Food.countDocuments(filter)]. *)
Definition Food_countDocuments (P : Food -> Prop) `{forall f, Decision (P f)}
  : Op nat :=
  fun db => (db, length (filter (fun d => P d.2) (map_to_list (foods db)))).

(** GET /api/users/stats: the four counts of [Promise.all], in the order
    the queries are issued. *)
Definition stats (user : User.t) : Task DB UsersResponse :=
  catch
    (let userId := User._id user in
     await sharedCount :=
       Food_countDocuments (fun f => Food.donor f = userId) in
     await claimedCount :=
       Food_countDocuments (fun f => Food.claimedBy f = Some userId) in
     await completedAsDonor :=
       Food_countDocuments
         (fun f => Food.donor f = userId /\ Food.status f = completed) in
     await completedAsClaimer :=
       Food_countDocuments
         (fun f => Food.claimedBy f = Some userId /\ Food.status f = completed) in
     Ret (users_res 200
            (UStats (mkStats sharedCount claimedCount completedAsDonor
                             completedAsClaimer
                             (completedAsDonor + completedAsClaimer)))))
    (users_res 500 (UMessage "Server error")).

(** GET /api/users/my-food. *)
Definition myFood (user : User.t) : Task DB UsersResponse :=
  catch
    (await foods := Food_find (fun f => Food.donor f = User._id user) in
     Ret (users_res 200 (UFoods foods)))
    (users_res 500 (UMessage "Server error")).

(** GET /api/users/my-claims. *)
Definition myClaims (user : User.t) : Task DB UsersResponse :=
  catch
    (await foods := Food_find (fun f => Food.claimedBy f = Some (User._id user)) in
     Ret (users_res 200 (UFoods foods)))
    (users_res 500 (UMessage "Server error")).

(** *** What the requests keep *)

(** The lifecycle order: available, then claimed, then completed. *)
Definition rank (s : Status) : nat :=
  match s with
  | available => 0
  | claimed => 1
  | completed => 2
  end.

(** The authenticated user of a request, for the routes behind [protect]. *)
Definition requester (r : Request) : option User.t :=
  match r with
  | GetAvailable | GetAll | GetOne _ => None
  | PostFood user _ _ _ | PutFood user _ _ _ | DeleteFood user _
  | PostClaim user _ | PutComplete user _ | GetNotifications user
  | PutReadAll user => Some user
  end.

(** Requests that leave [status], [claimedBy] and [donor] alone: everything
    but an update whose body carries one of them. *)
Definition leaves_ownership_paths (r : Request) : Prop :=
  match r with
  | PutFood _ _ body _ =>
      Body.status body = None /\ Body.claimedBy body = None
      /\ Body.donor body = None
  | _ => True
  end.

(** Nobody has claimed their own listing. *)
Definition no_own_claim (db : Store) : Prop :=
  forall id f, foods db !! id = Some f -> Food.claimedBy f <> Some (Food.donor f).

(** Every stored listing has an id the counter has handed out. *)
Definition ids_allocated (db : Store) : Prop :=
  forall (id : ObjectId) f, foods db !! id = Some f -> (id < fresh db)%N.

(** What one request, served on its own, can do to the listing stored under
    [id]: nothing, or one of the five writes of routes/food.js, each with
    the checks its handler makes first. *)
Inductive listing_step (db : Store) (id : ObjectId)
  : Request -> option Food -> option Food -> Prop :=
| step_same r o : listing_step db id r o o
| step_created user body file lag o f :
    id = fresh db ->
    Food_new (foodData user body file) (clock db) (clock db + Z.of_N lag)
    = Some f ->
    listing_step db id (PostFood user body file lag) o (Some f)
| step_updated user body file f u :
    Food.donor f = User._id user ->
    castUpdate (updates body file) = Some u ->
    listing_step db id (PutFood user id body file)
      (Some f) (Some (applyUpdate u (clock db) f))
| step_deleted user f :
    Food.donor f = User._id user ->
    listing_step db id (DeleteFood user id) (Some f) None
| step_claimed user f :
    Food.status f = available ->
    is_Some (populate (Food.donor f)) ->
    Food.donor f <> User._id user ->
    listing_step db id (PostClaim user id)
      (Some f) (Some (claimed_by user (clock db) f))
| step_completed user f :
    Food.donor f = User._id user ->
    Food.status f = claimed ->
    listing_step db id (PutComplete user id)
      (Some f) (Some (completed_at (clock db) f)).

(** What the Food schema demands of a stored listing: the bounds of its
    validators, and name, description and address as [trim] leaves them. *)
Definition schema_valid (f : Food) : Prop :=
  Food.name f <> EmptyString
  /\ (String.length (Food.name f) <= 100)%nat
  /\ (String.length (Food.description f) <= 500)%nat
  /\ Food.address f <> EmptyString
  /\ from_option isNaN false (Food.latitude f) = false
  /\ from_option isNaN false (Food.longitude f) = false
  /\ JS.trim (Food.name f) = Food.name f
  /\ JS.trim (Food.description f) = Food.description f
  /\ JS.trim (Food.address f) = Food.address f.

(** The body that sends a listing's own text, status and references back:
    what a client that read the listing would put to change nothing. *)
Definition same_body (f : Food) : Body.t :=
  Body.mk (Some (Food.name f)) (Some (Food.description f))
          (Some (Food.photo f)) (Some (Food.address f)) None None
          (Some (Status_to_string (Food.status f))) (Some (Food.donor f))
          (Some (Food.claimedBy f)) (Some (Food.expiresAt f)).

End FoodShare.

(** ** The User model: avatar initials *)

Module UserModel.

(** [s.split(' ')]: the pieces between single spaces, empty pieces kept. *)
Fixpoint split_space (s : string) : list string :=
  match s with
  | EmptyString => [EmptyString]
  | String c s' =>
      if Ascii.eqb c " " then EmptyString :: split_space s'
      else
        match split_space s' with
        | part :: parts => String c part :: parts
        | [] => [String c EmptyString]
        end
  end.

(** [s[0]], which is [undefined] for the empty string. *)
Definition first_char (s : string) : option ascii :=
  match s with
  | EmptyString => None
  | String c _ => Some c
  end.

(** [s[s.length - 1]]. *)
Fixpoint last_char (s : string) : option ascii :=
  match s with
  | EmptyString => None
  | String c EmptyString => Some c
  | String _ s' => last_char s'
  end.

(** The string that the pre-save hook of the User schema upper-cases into
    [avatar], for [this.name] equal to [name]:
    [parts[0][0] + parts[parts.length - 1][0]] when the trimmed name has two
    parts or more, [name.substring(0, 2)] otherwise.  [None] stands for the
    case that one of the two characters is [undefined]. *)
Definition initials (name : string) : option string :=
  let parts := split_space (JS.trim name) in
  if (2 <=? length parts)%nat then
    match first_char (default EmptyString (head parts)),
          first_char (default EmptyString (last parts)) with
    | Some a, Some b => Some (String a (String b EmptyString))
    | _, _ => None
    end
  else Some (String.substring 0 2 name).

End UserModel.

(** ** The client: what a food card shows (app.js) *)

Module Client.

(** What [timeAgo] and [timeUntilExpiry] display, before it is written out
    as text. *)
Inductive TimeLabel :=
| JustNow
| MinutesAgo (mins : Z)
| HoursAgo (hours : Z)
| DaysAgo (days : Z)
| Fresh
| Expired
| MinutesLeft (mins : Z)
| HoursLeft (hours : Z).

Definition render (l : TimeLabel) : string :=
  match l with
  | JustNow => "just now"
  | MinutesAgo mins => pretty mins ++ "m ago"
  | HoursAgo hours => pretty hours ++ "h ago"
  | DaysAgo days => pretty days ++ "d ago"
  | Fresh => "Fresh"
  | Expired => "Expired"
  | MinutesLeft mins => pretty mins ++ "m left"
  | HoursLeft hours => pretty hours ++ "h left"
  end%string.

(** The label of [timeAgo(dateStr)] at time [now] ([Date.now()]).  [date]
    is [None] for a missing date string and otherwise the time, in
    milliseconds, that the string denotes ([new Date(dateStr).getTime()]).
    Times are whole milliseconds, and [Math.floor] of their quotient by
    60000, 60, 24 or 3600000 is [Z.div]. *)
Definition ago (date : option Z) (now : Z) : TimeLabel :=
  match date with
  | None => JustNow
  | Some t =>
      let diff := now - t in
      let mins := diff / 60000 in
      if mins <? 1 then JustNow
      else if mins <? 60 then MinutesAgo mins
      else
        let hours := mins / 60 in
        if hours <? 24 then HoursAgo hours
        else
          let days := hours / 24 in
          DaysAgo days
  end.

Definition timeAgo (date : option Z) (now : Z) : string := render (ago date now).

(** The label of [timeUntilExpiry(dateStr)] at time [now]. *)
Definition until (date : option Z) (now : Z) : TimeLabel :=
  match date with
  | None => Fresh
  | Some t =>
      let diff := t - now in
      if diff <=? 0 then Expired
      else
        let hours := diff / 3600000 in
        if hours <? 1 then MinutesLeft (diff / 60000)
        else HoursLeft hours
  end.

Definition timeUntilExpiry (date : option Z) (now : Z) : string :=
  render (until date now).

(** The location badge of a card:
    [food.address ? food.address.substring(0, 25)
                    + (food.address.length > 25 ? '...' : '') : 'Nearby']. *)
Definition addressBadge (address : string) : string :=
  if JS.truthy (Some address) then
    (String.substring 0 25 address
     ++ (if (25 <? String.length address)%nat then "..." else EmptyString))%string
  else "Nearby".

Section Card.

Context `{JSNumber}.

(** The action a card offers, by the markup of [actionButton] in
    [renderCard]: the disabled Completed badge, the Mark Picked Up button
    ([completeFood(id)]), the disabled Claimed badge, the Delete button
    ([deleteFood(id)]) and the Claim Food button ([claimFood(id)]). *)
Inductive Button :=
| CompletedBadge
| MarkPickedUp (id : ObjectId)
| ClaimedBadge
| DeleteButton (id : ObjectId)
| ClaimButton (id : ObjectId).

(** [isOwner] of [renderCard], for the logged-in user if there is one and the
    populated donor of the listing, null when the server found no such
    user: [currentUser && food.donor && (food.donor._id === currentUser._id
    || food.donor === currentUser._id)], where the second comparison, of
    the populated donor itself with an id, is false. *)
Definition isOwner (currentUser : option User.t) (food_donor : option User.t)
  : bool :=
  match currentUser, food_donor with
  | Some user, Some donor => (User._id donor =? User._id user)%N
  | _, _ => false
  end.

(** The button of a card for the listing [food], which the server sent
    with its donor populated as [food_donor]. *)
Definition actionButton (currentUser : option User.t) (food : ObjectId * Food.t)
    (food_donor : option User.t) : Button :=
  let isClaimed := bool_decide (Food.status food.2 = claimed) in
  let isCompleted := bool_decide (Food.status food.2 = completed) in
  let isOwner := isOwner currentUser food_donor in
  if isCompleted then CompletedBadge
  else if isClaimed then
    if isOwner then MarkPickedUp food.1 else ClaimedBadge
  else
    if isOwner then DeleteButton food.1 else ClaimButton food.1.


End Card.

End Client.

(** ** A scenario *)

Module Scenario.

(** Numbers for the scenario, which uses whole, unsigned coordinates only:
    an integer, or NaN as [None].  On a non-empty string of decimal digits
    that denotes a number below 2^53, [parseFloat] and [Number(...)] are
    what they are in JavaScript; on other strings this instance reads the
    leading digits, or wants the whole string to be digits, and stands for
    no more than itself. *)
Definition digit (c : ascii) : option Z :=
  let n := Z.of_N (Ascii.N_of_ascii c) in
  if (48 <=? n) && (n <=? 57) then Some (n - 48) else None.

Fixpoint leading_digits (acc : option Z) (s : string) : option Z :=
  match s with
  | EmptyString => acc
  | String c s' =>
      match digit c with
      | Some d => leading_digits (Some (10 * default 0 acc + d)) s'
      | None => acc
      end
  end.

Fixpoint all_digits (acc : option Z) (s : string) : option Z :=
  match s with
  | EmptyString => acc
  | String c s' =>
      match digit c with
      | Some d => all_digits (Some (10 * default 0 acc + d)) s'
      | None => None
      end
  end.

#[export] Instance numbers : JSNumber := {|
  Number := option Z;
  parseFloat := leading_digits None;
  toNumber := all_digits None;
  isNaN := fun x => bool_decide (x = None)
|}.

Definition alice : User.t := User.mk 100 "Alice" "AL".
Definition bob : User.t := User.mk 101 "Bob" "BO".
Definition carol : User.t := User.mk 102 "Carol" "CA".

(** The users that have registered. *)
#[export] Instance registered : Users :=
  (list_to_map [(100%N, alice); (101%N, bob); (102%N, carol)]
     : gmap ObjectId User.t).

(** Alice shares bread: the first listing gets id 0. *)
Definition bread : Body.t :=
  Body.mk (Some "Bread") None None (Some "12 Main St") None None None None
          None None.

Definition shared : DB := after (PostFood alice bread None 0) init.

(** The listing as [shared] stores it. *)
Definition bread_listing : Food.t :=
  Food.mk "Bread" EmptyString EmptyString "12 Main St" None None available 100
          None 86400000 0 0.

(** A name of 101 characters. *)
Definition long_name : string := String.concat EmptyString (replicate 101 "a").

Definition long_bread : Body.t :=
  Body.mk (Some long_name) None None (Some "12 Main St") None None None None
          None None.

(** Update bodies that carry only a status. *)
Definition status_only (s : string) : Body.t :=
  Body.mk None None None None None None (Some s) None None None.

(** Alice marks her listing claimed through an update. *)
Definition marked : DB := after (PutFood alice 0 (status_only "claimed") None) shared.

(** Alice hands her listing to an id that no user has. *)
Definition donor_only (donor : ObjectId) : Body.t :=
  Body.mk None None None None None None None (Some donor) None None.

Definition orphaned : DB := after (PutFood alice 0 (donor_only 999) None) shared.

(** Carol shares soup; the save comes 3 ms after the listing was built. *)
Definition soup : Body.t :=
  Body.mk (Some "Soup") None None (Some "3 Mill Lane") None None None None
          None None.

Definition soup_listing : Food.t :=
  Food.mk "Soup" EmptyString EmptyString "3 Mill Lane" None None available 102
          None 86400000 3 3.

(** Bob and Carol claim the bread at the same time: both load the listing
    before either saves it. *)
Definition raced : DB * Task DB Response * Task DB Response :=
  interleave both_load_first (claim bob 0) (claim carol 0) shared.

End Scenario.

(** ** Properties *)

Section Properties.

Context `{JSNumber} `{Users}.

Local Abbreviation Food := Food.t.
Local Abbreviation Store := DB.
Local Abbreviation Reply := Response.

(** *** Tasks *)

Lemma run_step {S R} (t : Task S R) (s : S) :
  run t s = let (s', t') := step t s in run t' s'.
Proof. destruct t as [r| |A op k]; simpl; [done | done |]. by destruct (op s). Qed.

(** Serving a request on its own is one of the schedules: the one in which
    the other request waits. *)
Lemma run_is_a_schedule {S R} (t1 t2 : Task S R) (s : S) :
  exists sched s' t1',
    interleave sched t1 t2 s = (s', t1', t2)
    /\ run t1 s = (s', response t1').
Proof.
  revert s. induction t1 as [r| |A op k IH]; intros s.
  - by exists [], s, (Ret r).
  - by exists [], s, Throw.
  - destruct (op s) as [s1 a] eqn:Hop.
    destruct (IH a s1) as (sched & s' & t1' & Hsched & Hrun).
    exists (true :: sched), s', t1'. simpl. by rewrite Hop.
Qed.

(** A task wrapped in its [catch] always answers. *)
Lemma run_catch {S R} (t : Task S R) (e : R) (s : S) :
  run (catch t e) s =
    match run t s with
    | (s', Some r) => (s', Some r)
    | (s', None) => (s', Some e)
    end.
Proof.
  revert s. induction t as [r| |A op k IH]; intros s; simpl; [done | done |].
  destruct (op s) as [s' a]. apply IH.
Qed.

Lemma handler_answers (r : Request) (db : Store) :
  exists reply, (run (handler r) db).2 = Some reply.
Proof.
  destruct r;
    cbv [handler listAvailable listAll get create update deleteFood claim
         complete listNotifications markAllRead];
    rewrite run_catch;
    match goal with |- context [run ?t db] => destruct (run t db) as [? [?|]] end;
    eauto.
Qed.

(** *** Strings *)

Lemma append_nonempty (a b : string) :
  b <> EmptyString -> (a ++ b)%string <> EmptyString.
Proof. destruct a; simpl; [done | discriminate]. Qed.

Lemma claim_message_nonempty user food :
  String.eqb (claim_message user food) EmptyString = false.
Proof.
  apply String.eqb_neq. unfold claim_message.
  apply append_nonempty. discriminate.
Qed.

(** *** The handlers, evaluated *)

Lemma run_get (id : ObjectId) (db : Store) :
  run (get id) db =
    (db, Some match foods db !! id with
              | None => res 404 (JMessage "Food listing not found")
              | Some food => res 200 (JFood (id, food))
              end).
Proof. unfold get. rewrite run_catch. simpl. by destruct (foods db !! id). Qed.

(** A populated reference carries the [_id] it was resolved from. *)
Lemma populate_Some (ref : ObjectId) :
  is_Some (populate ref) ->
  exists name avatar, populate ref = Some (User.mk ref name avatar).
Proof.
  unfold populate. destruct (users !! ref) as [u|]; simpl; [eauto|].
  by intros [? ?].
Qed.

Lemma populate_None (ref : ObjectId) :
  ~ is_Some (populate ref) -> populate ref = None.
Proof. destruct (populate ref); [intros []; eauto | done]. Qed.

Lemma run_claim (user : User.t) (id : ObjectId) (db : Store) :
  run (claim user id) db =
    match foods db !! id with
    | None => (db, Some (res 404 (JMessage "Food listing not found")))
    | Some food =>
        if decide (Food.status food <> available) then
          (db, Some (res 400 (JMessage "This food has already been claimed")))
        else if decide (is_Some (populate (Food.donor food))) then
          if decide (Food.donor food = User._id user) then
            (db, Some (res 400 (JMessage "You cannot claim your own food")))
          else
            (mkDB (<[id := claimed_by user (clock db) food]> (foods db))
                  (notifications db ++ [claim_notification user id food db])
                  (N.succ (fresh db)) (clock db),
             Some (res 200 (JFood (id, claimed_by user (clock db) food))))
        else (db, Some server_error)
    end.
Proof.
  unfold claim. rewrite run_catch. simpl.
  destruct (foods db !! id) as [food|] eqn:Hfood; simpl; [|done].
  destruct (decide (Food.status food <> available)) as [Hst|Hst].
  { rewrite bool_decide_eq_false_2 by done. done. }
  apply dec_stable in Hst. rewrite bool_decide_eq_true_2 by done. simpl.
  destruct (decide (is_Some (populate (Food.donor food)))) as [Hp|Hp];
    [|by rewrite (populate_None _ Hp)].
  destruct (populate_Some _ Hp) as (name & avatar & ->). simpl.
  destruct (decide (Food.donor food = User._id user)) as [Hd|Hd].
  { apply N.eqb_eq in Hd. by rewrite Hd. }
  apply N.eqb_neq in Hd. rewrite Hd. simpl.
  unfold Food_save. rewrite Hfood. simpl.
  unfold Notification_create. simpl.
  change (claim_message user _) with (claim_message user food).
  rewrite claim_message_nonempty. simpl.
  by destruct food.
Qed.

Lemma run_complete (user : User.t) (id : ObjectId) (db : Store) :
  run (complete user id) db =
    match foods db !! id with
    | None => (db, Some (res 404 (JMessage "Food listing not found")))
    | Some food =>
        if decide (Food.donor food <> User._id user) then
          (db, Some (res 403 (JMessage "Only the donor can mark as completed")))
        else if decide (Food.status food <> claimed) then
          (db, Some (res 400 (JMessage "Food must be claimed before completing")))
        else
          match Food.claimedBy food with
          | Some claimer =>
              (mkDB (<[id := completed_at (clock db) food]> (foods db))
                    (notifications db
                       ++ [completed_notification user id food claimer db])
                    (N.succ (fresh db)) (clock db),
               Some (res 200 (JFood (id, completed_at (clock db) food))))
          | None =>
              (mkDB (<[id := completed_at (clock db) food]> (foods db))
                    (notifications db) (fresh db) (clock db),
               Some (res 200 (JFood (id, completed_at (clock db) food))))
          end
    end.
Proof.
  unfold complete. rewrite run_catch. simpl.
  destruct (foods db !! id) as [food|] eqn:Hfood; simpl; [|done].
  destruct (decide (Food.donor food <> User._id user)) as [Hd|Hd].
  { apply N.eqb_neq in Hd. by rewrite Hd. }
  apply dec_stable, N.eqb_eq in Hd. rewrite Hd. simpl.
  destruct (decide (Food.status food <> claimed)) as [Hst|Hst].
  { rewrite bool_decide_eq_false_2 by done. done. }
  apply dec_stable in Hst. rewrite bool_decide_eq_true_2 by done. simpl.
  unfold Food_save. rewrite Hfood. simpl.
  destruct (Food.claimedBy food) as [claimer|] eqn:Hc; simpl.
  - unfold Notification_create. simpl.
    destruct food; simpl in *. by subst.
  - by destruct food.
Qed.

Lemma run_deleteFood (user : User.t) (id : ObjectId) (db : Store) :
  run (deleteFood user id) db =
    match foods db !! id with
    | None => (db, Some (res 404 (JMessage "Food listing not found")))
    | Some food =>
        if decide (Food.donor food <> User._id user) then
          (db, Some (res 403 (JMessage "Not authorized to delete this listing")))
        else
          (mkDB (base.delete id (foods db)) (notifications db) (fresh db)
                (clock db),
           Some (res 200 (JMessage "Food listing removed")))
    end.
Proof.
  unfold deleteFood. rewrite run_catch. simpl.
  destruct (foods db !! id) as [food|] eqn:Hfood; simpl; [|done].
  destruct (decide (Food.donor food <> User._id user)) as [Hd|Hd].
  - apply N.eqb_neq in Hd. by rewrite Hd.
  - apply dec_stable, N.eqb_eq in Hd. by rewrite Hd.
Qed.

Lemma run_create (user : User.t) (body : Body.t) (file : option string)
    (lag : N) (db : Store) :
  run (create user body file lag) db =
    if negb (JS.truthy (Body.name body)) || negb (JS.truthy (Body.address body))
    then (db, Some (res 400 (JMessage "Please provide food name and address")))
    else
      match Food_new (foodData user body file) (clock db)
                     (clock db + Z.of_N lag) with
      | Some food =>
          (mkDB (<[fresh db := food]> (foods db)) (notifications db)
                (N.succ (fresh db)) (clock db + Z.of_N lag),
           Some (res 201 (JFood (fresh db, food))))
      | None =>
          (db, Some (res 500 (JMessage "Server error creating food listing")))
      end.
Proof.
  unfold create. rewrite run_catch.
  destruct (negb (JS.truthy (Body.name body))
            || negb (JS.truthy (Body.address body))); [done|].
  simpl. unfold Food_create.
  by destruct (Food_new (foodData user body file) (clock db)
                        (clock db + Z.of_N lag)).
Qed.

Lemma run_update (user : User.t) (id : ObjectId) (body : Body.t)
    (file : option string) (db : Store) :
  run (update user id body file) db =
    match foods db !! id with
    | None => (db, Some (res 404 (JMessage "Food listing not found")))
    | Some food =>
        if decide (Food.donor food <> User._id user) then
          (db, Some (res 403 (JMessage "Not authorized to update this listing")))
        else
          match castUpdate (updates body file) with
          | Some u =>
              (mkDB (<[id := applyUpdate u (clock db) food]> (foods db))
                    (notifications db) (fresh db) (clock db),
               Some (res 200 (JFood (id, applyUpdate u (clock db) food))))
          | None => (db, Some server_error)
          end
    end.
Proof.
  unfold update. rewrite run_catch. simpl.
  destruct (foods db !! id) as [food|] eqn:Hfood; simpl; [|done].
  destruct (decide (Food.donor food <> User._id user)) as [Hd|Hd].
  { apply N.eqb_neq in Hd. by rewrite Hd. }
  apply dec_stable, N.eqb_eq in Hd. rewrite Hd. simpl.
  unfold Food_findByIdAndUpdate.
  destruct (castUpdate (updates body file)) as [u|]; [|done].
  by rewrite Hfood.
Qed.

(** *** The schema *)

Lemma cast_optional_number_Some (x : option Number) :
  from_option isNaN false x = false ->
  cast_optional cast_number x = Some x.
Proof.
  destruct x as [x|]; simpl; [|done]. unfold cast_number. by intros ->.
Qed.

Lemma cast_optional_number_None (x : option Number) :
  from_option isNaN false x = true ->
  cast_optional cast_number x = None.
Proof.
  destruct x as [x|]; simpl; [|done]. unfold cast_number. by intros ->.
Qed.

Lemma Food_new_validates (data : FoodData) (built saved : Z) :
  validates data = true ->
  Food_new data built saved =
    Some (Food.mk (JS.trim (data_name data)) (JS.trim (data_description data))
                  (default EmptyString (data_photo data))
                  (JS.trim (data_address data)) (data_latitude data)
                  (data_longitude data) available (data_donor data) None
                  (expiresAt_default built) saved saved).
Proof.
  unfold validates, Food_new, cast_name, cast_description, cast_address.
  rewrite !andb_true_iff, !negb_true_iff, !Nat.leb_le.
  intros [[[[[Hn Hnl] Hdl] Ha] Hla] Hlo].
  rewrite Hn, Ha. simpl.
  rewrite (proj2 (Nat.ltb_ge _ _) Hnl), (proj2 (Nat.ltb_ge _ _) Hdl). simpl.
  by rewrite (cast_optional_number_Some _ Hla), (cast_optional_number_Some _ Hlo).
Qed.

Lemma Food_new_rejects (data : FoodData) (built saved : Z) :
  validates data = false -> Food_new data built saved = None.
Proof.
  unfold validates, Food_new, cast_name, cast_description, cast_address.
  rewrite !andb_false_iff, !negb_false_iff, !Nat.leb_gt.
  intros Hv.
  destruct (String.eqb (JS.trim (data_name data)) EmptyString) eqn:Hn; [done|].
  destruct (100 <? String.length (JS.trim (data_name data)))%nat eqn:Hnl; [done|].
  apply Nat.ltb_ge in Hnl. simpl.
  destruct (500 <? String.length (JS.trim (data_description data)))%nat eqn:Hdl;
    [done|].
  apply Nat.ltb_ge in Hdl. simpl.
  destruct (String.eqb (JS.trim (data_address data)) EmptyString) eqn:Ha; [done|].
  simpl.
  destruct Hv as [[[[[Hv|Hv]|Hv]|Hv]|Hv]|Hv]; try done; try lia.
  - by rewrite (cast_optional_number_None _ Hv).
  - rewrite (cast_optional_number_None (data_longitude data) Hv).
    by destruct (cast_optional cast_number (data_latitude data)).
Qed.

(** A freshly built document is available and unclaimed; it expires 24
    hours after it was built and is stamped with the time of its save. *)
Lemma Food_new_lifecycle (data : FoodData) (built saved : Z) (food : Food) :
  Food_new data built saved = Some food ->
  Food.status food = available /\ Food.claimedBy food = None
  /\ Food.donor food = data_donor data
  /\ Food.expiresAt food = built + 86400000
  /\ Food.createdAt food = saved.
Proof.
  destruct (validates data) eqn:Hv.
  - rewrite (Food_new_validates _ _ _ Hv). intros [= <-]. simpl.
    unfold expiresAt_default. repeat split; lia.
  - by rewrite (Food_new_rejects _ _ _ Hv).
Qed.

Lemma Status_of_string_Some (s : string) (st : Status) :
  Status_of_string s = Some st -> Status_to_string st = s.
Proof.
  unfold Status_of_string.
  destruct (String.eqb s "available") eqn:H1;
    [apply String.eqb_eq in H1; by intros [= <-]|].
  destruct (String.eqb s "claimed") eqn:H2;
    [apply String.eqb_eq in H2; by intros [= <-]|].
  destruct (String.eqb s "completed") eqn:H3;
    [apply String.eqb_eq in H3; by intros [= <-]|].
  done.
Qed.

Lemma cast_optional_Some {A B} (c : A -> option B) (x : option A) (y : option B) :
  cast_optional c x = Some y ->
  match x with
  | Some a => exists b, c a = Some b /\ y = Some b
  | None => y = None
  end.
Proof.
  destruct x as [a|]; simpl; [|by intros [= <-]].
  destruct (c a) as [b|]; simpl; [|done]. intros [= <-]. eauto.
Qed.

Lemma cast_name_Some s s' : cast_name s = Some s' -> s' = JS.trim s.
Proof. unfold cast_name. case_match; congruence. Qed.

Lemma cast_description_Some s s' : cast_description s = Some s' -> s' = JS.trim s.
Proof. unfold cast_description. case_match; congruence. Qed.

Lemma cast_address_Some s s' : cast_address s = Some s' -> s' = JS.trim s.
Proof. unfold cast_address. case_match; congruence. Qed.

Lemma cast_number_string_Some s x :
  cast_number_string s = Some x ->
  x = if String.eqb s EmptyString then None else Some (toNumber s).
Proof.
  unfold cast_number_string, cast_number.
  destruct (String.eqb s EmptyString); [congruence|].
  destruct (isNaN (toNumber s)); simpl; congruence.
Qed.

(** An accepted update writes the body's paths. *)
Lemma castUpdate_written (b : Body.t) (u : Update) (now : Z) (food : Food) :
  castUpdate b = Some u -> written b food (applyUpdate u now food).
Proof.
  unfold castUpdate. intros Hu.
  destruct (cast_optional cast_name (Body.name b)) as [n|] eqn:Hn; [|done].
  destruct (cast_optional cast_description (Body.description b)) as [d|] eqn:Hd;
    [|done].
  destruct (cast_optional cast_address (Body.address b)) as [a|] eqn:Ha; [|done].
  destruct (cast_optional cast_number_string (Body.latitude b)) as [la|] eqn:Hla;
    [|done].
  destruct (cast_optional cast_number_string (Body.longitude b)) as [lo|] eqn:Hlo;
    [|done].
  destruct (cast_optional Status_of_string (Body.status b)) as [st|] eqn:Hst;
    [|done].
  simpl in Hu. injection Hu as <-.
  apply cast_optional_Some in Hn, Hd, Ha, Hla, Hlo, Hst.
  unfold written, applyUpdate; simpl.
  repeat split.
  - destruct (Body.name b); [destruct Hn as (?&?%cast_name_Some&->)|]; by subst.
  - destruct (Body.description b);
      [destruct Hd as (?&?%cast_description_Some&->)|]; by subst.
  - destruct (Body.address b);
      [destruct Ha as (?&?%cast_address_Some&->)|]; by subst.
  - destruct (Body.latitude b);
      [destruct Hla as (?&?%cast_number_string_Some&->)|]; by subst.
  - destruct (Body.longitude b);
      [destruct Hlo as (?&?%cast_number_string_Some&->)|]; by subst.
  - destruct (Body.status b);
      [destruct Hst as (?&?%Status_of_string_Some&->)|]; by subst.
Qed.

(** *** Queries *)

(** What [Food.find(filter).sort({ createdAt: -1 })] returns: the stored
    documents that pass the filter, each once, newest first. *)
Lemma Food_find_spec (P : Food -> Prop) `{forall f, Decision (P f)} (db : Store) :
  let l := (Food_find P db).2 in
  (forall id food, (id, food) ∈ l <-> foods db !! id = Some food /\ P food)
  /\ NoDup l
  /\ StronglySorted newest_first l.
Proof.
  unfold Food_find; simpl. set (l := filter _ _).
  assert (Hperm : merge_sort newest_first l ≡ₚ l) by apply merge_sort_Permutation.
  split; [|split].
  - intros id food. rewrite Hperm. unfold l.
    rewrite list_elem_of_filter, elem_of_map_to_list. simpl. tauto.
  - rewrite Hperm. apply NoDup_filter, NoDup_map_to_list.
  - apply StronglySorted_merge_sort; apply _.
Qed.

Lemma updateMany_none_left (user : ObjectId) (now : Z) (l : list Notification.t) :
  filter (unread_of user)
    ((fun n => if decide (unread_of user n)
               then Notification.set_read true now n else n) <$> l) = [].
Proof.
  induction l as [|n l IH]; [done|].
  rewrite fmap_cons, filter_cons, IH.
  rewrite decide_False; [done|].
  destruct (decide (unread_of user n)) as [Hn|Hn]; [|done].
  unfold unread_of; simpl. by intros [_ ?].
Qed.

Lemma updateMany_nothing_to_do (user : ObjectId) (now : Z) (l : list Notification.t) :
  filter (unread_of user) l = [] ->
  (fun n => if decide (unread_of user n)
            then Notification.set_read true now n else n) <$> l = l.
Proof.
  induction l as [|n l IH]; [done|].
  rewrite filter_cons, fmap_cons.
  case_decide; [done|]. intros Hl. by rewrite IH.
Qed.

(** *** The lifecycle invariant, one request at a time *)

Lemma lifecycle_same_foods (db db' : Store) :
  foods db' = foods db -> lifecycle_invariant db -> lifecycle_invariant db'.
Proof. unfold lifecycle_invariant. by intros ->. Qed.

Lemma lifecycle_insert (db db' : Store) (id : ObjectId) (food : Food) :
  foods db' = <[id := food]> (foods db) ->
  claimer_iff_claimed food ->
  lifecycle_invariant db -> lifecycle_invariant db'.
Proof.
  unfold lifecycle_invariant. intros -> Hfood Hdb id' food'.
  rewrite lookup_insert. case_decide; [by intros [= <-] | apply Hdb].
Qed.

Lemma lifecycle_delete (db db' : Store) (id : ObjectId) :
  foods db' = base.delete id (foods db) ->
  lifecycle_invariant db -> lifecycle_invariant db'.
Proof.
  unfold lifecycle_invariant. intros -> Hdb id' food'.
  rewrite lookup_delete. case_decide; [done | apply Hdb].
Qed.

Lemma claimed_by_lifecycle (user : User.t) (now : Z) (food : Food) :
  claimer_iff_claimed (claimed_by user now food).
Proof. unfold claimer_iff_claimed; simpl. split; eauto. Qed.

Lemma completed_at_lifecycle (now : Z) (food : Food) :
  Food.status food = claimed ->
  claimer_iff_claimed food -> claimer_iff_claimed (completed_at now food).
Proof.
  unfold claimer_iff_claimed; simpl. intros Hst [_ Hc]. split; [eauto|].
  intros _. apply Hc. by left.
Qed.

Lemma lifecycle_after (r : Request) (db : Store) :
  leaves_lifecycle_paths r ->
  lifecycle_invariant db -> lifecycle_invariant (after r db).
Proof.
  intros Hr Hdb. unfold after.
  destruct r as [| |id|user body file lag|user id body file|user id|user id
                 |user id|user|user]; cbv [handler].
  - by unfold listAvailable; rewrite run_catch.
  - by unfold listAll; rewrite run_catch.
  - by rewrite run_get.
  - rewrite run_create.
    destruct (negb _ || negb _); [done|].
    destruct (Food_new _ _ _) as [food|] eqn:Hnew; [|done].
    apply Food_new_lifecycle in Hnew as (Hst & Hc & _).
    eapply lifecycle_insert; [done| |done].
    unfold claimer_iff_claimed. rewrite Hst, Hc. split.
    + by intros [? ?].
    + by intros [?|?].
  - rewrite run_update.
    destruct (foods db !! id) as [food|] eqn:Hfood; [|done].
    case_decide; [done|].
    destruct (castUpdate _) as [u|] eqn:Hu; [|done].
    eapply lifecycle_insert; [done| |done].
    apply (castUpdate_written _ _ (clock db) food) in Hu
      as (_&_&_&_&_&_&Hst&_&Hc&_).
    destruct Hr as [Hbs Hbc].
    assert (Hbs' : Body.status (updates body file) = None) by by destruct file.
    assert (Hbc' : Body.claimedBy (updates body file) = None) by by destruct file.
    rewrite Hbs' in Hst. rewrite Hbc' in Hc.
    unfold claimer_iff_claimed. rewrite Hst, Hc. by apply (Hdb id).
  - rewrite run_deleteFood.
    destruct (foods db !! id) as [food|] eqn:Hfood; [|done].
    case_decide; [done|]. by eapply lifecycle_delete.
  - rewrite run_claim.
    destruct (foods db !! id) as [food|] eqn:Hfood; [|done].
    repeat case_decide; try done.
    eapply lifecycle_insert; [done| |done]. apply claimed_by_lifecycle.
  - rewrite run_complete.
    destruct (foods db !! id) as [food|] eqn:Hfood; [|done].
    destruct (decide (Food.donor food <> User._id user)); [done|].
    destruct (decide (Food.status food <> claimed)) as [|Hst]; [done|].
    apply dec_stable in Hst.
    assert (claimer_iff_claimed (completed_at (clock db) food))
      by (apply completed_at_lifecycle; [done | by apply (Hdb id)]).
    destruct (Food.claimedBy food); by eapply lifecycle_insert.
  - by unfold listNotifications; rewrite run_catch.
  - by unfold markAllRead; rewrite run_catch.
Qed.

(** *** Two claims in flight *)

(** When both claims load the listing before either saves it, each passes
    its checks on what it loaded; the second save overwrites the first. *)
Lemma claims_race (u1 u2 : User.t) (id : ObjectId) (db : Store) (food : Food) :
  foods db !! id = Some food ->
  Food.status food = available ->
  is_Some (populate (Food.donor food)) ->
  Food.donor food <> User._id u1 ->
  Food.donor food <> User._id u2 ->
  interleave both_load_first (claim u1 id) (claim u2 id) db =
    (mkDB (<[id := claimed_by u2 (clock db) food]> (foods db))
          (notifications db
             ++ [claim_notification u1 id food db;
                 Notification.mk (N.succ (fresh db)) (Food.donor food)
                   claim_request (claim_message u2 food) (Some id)
                   (Some (User._id u2)) false (clock db) (clock db)])
          (N.succ (N.succ (fresh db))) (clock db),
     Ret (res 200 (JFood (id, claimed_by u1 (clock db) food))),
     Ret (res 200 (JFood (id, claimed_by u2 (clock db) food)))).
Proof.
  intros Hfood Hst Hp Hd1 Hd2.
  apply N.eqb_neq in Hd1, Hd2.
  destruct (populate_Some _ Hp) as (name & avatar & Hdonor).
  unfold both_load_first, claim. simpl.
  rewrite Hfood. simpl.
  rewrite bool_decide_eq_true_2 by done. simpl.
  rewrite Hdonor. simpl.
  rewrite Hd1, Hd2. simpl.
  unfold Food_save. simpl. rewrite Hfood. simpl.
  rewrite lookup_insert_eq. simpl.
  unfold Notification_create. simpl.
  change (claim_message u1 _) with (claim_message u1 food).
  change (claim_message u2 _) with (claim_message u2 food).
  rewrite !claim_message_nonempty. simpl.
  rewrite insert_insert_eq, <- app_assoc. simpl.
  by destruct food.
Qed.

(** ** The claims *)

(** C1: what the code does.  A claim of listing [id] by [user] answers 404
    (NotFound) when no listing has that id; otherwise 400 "This food has
    already been claimed" (InvalidState) when the status is not available.
    Otherwise, when the donor of the listing is a user of the User
    collection, it answers 400 "You cannot claim your own food" (Forbidden)
    when the donor is the caller, and else stores the listing with status
    claimed and claimedBy the caller (its other paths as they were,
    updatedAt apart), appends one claim_request notification, unread,
    addressed to the donor, referencing the listing and naming the caller
    as the actor, and answers 200 with the stored listing.  But when no
    user has the donor's id, the claim of an available listing is answered
    500 "Server error" whoever the caller is, and nothing is stored: the
    handler reads [_id] of the populated donor, which is null.  Every
    failure leaves the stores as they were. *)
Theorem claim_spec (user : User.t) (id : ObjectId) (db : Store) :
  match foods db !! id with
  | None =>
      run (claim user id) db
      = (db, Some (res 404 (JMessage "Food listing not found")))
  | Some food =>
      if decide (Food.status food = available) then
        match populate (Food.donor food) with
        | Some _ =>
            if decide (Food.donor food = User._id user) then
              run (claim user id) db
              = (db, Some (res 400 (JMessage "You cannot claim your own food")))
            else
              exists db' food' n,
                run (claim user id) db
                = (db', Some (res 200 (JFood (id, food'))))
                /\ foods db' = <[id := food']> (foods db)
                /\ food' = claimed_by user (clock db) food
                /\ Food.status food' = claimed
                /\ Food.claimedBy food' = Some (User._id user)
                /\ Food.donor food' = Food.donor food
                /\ notifications db' = notifications db ++ [n]
                /\ Notification.user n = Food.donor food
                /\ Notification.type n = claim_request
                /\ Notification.food n = Some id
                /\ Notification.fromUser n = Some (User._id user)
                /\ Notification.read n = false
        | None =>
            run (claim user id) db = (db, Some (res 500 (JMessage "Server error")))
        end
      else
        run (claim user id) db
        = (db, Some (res 400 (JMessage "This food has already been claimed")))
  end.
Proof.
  rewrite run_claim.
  destruct (foods db !! id) as [food|]; [|done].
  destruct (decide (Food.status food = available)) as [Hst|Hst];
    [|by rewrite decide_True].
  rewrite (decide_False (P := Food.status food <> available))
    by (intros Hne; by apply Hne).
  destruct (populate (Food.donor food)) as [donor|] eqn:Hp.
  - rewrite (decide_True (P := is_Some (Some donor))) by eauto.
    case_decide; [done|].
    eexists _, _, _. split; [reflexivity|]. simpl. by repeat split.
  - rewrite (decide_False (P := is_Some None)); [done|]. by intros [? ?].
Qed.

(** C4, as the code has it.  Completing listing [id] as [user] answers 404
    (NotFound) when the listing is absent; otherwise 403 (Forbidden) unless
    the caller is the donor; otherwise 400 (InvalidState) unless the status
    is claimed; otherwise it stores the listing with status completed and
    answers 200 with it, and it appends one food_completed notification,
    addressed to the claimer, exactly when the listing records a claimer:
    with claimedBy null the completion succeeds and no notification is
    created. *)
Theorem complete_spec (user : User.t) (id : ObjectId) (db : Store) :
  match foods db !! id with
  | None =>
      run (complete user id) db
      = (db, Some (res 404 (JMessage "Food listing not found")))
  | Some food =>
      if decide (Food.donor food = User._id user) then
        if decide (Food.status food = claimed) then
          exists db',
            let food' := completed_at (clock db) food in
            run (complete user id) db = (db', Some (res 200 (JFood (id, food'))))
            /\ foods db' = <[id := food']> (foods db)
            /\ Food.status food' = completed
            /\ Food.claimedBy food' = Food.claimedBy food
            /\ match Food.claimedBy food with
               | Some claimer =>
                   exists n,
                     notifications db' = notifications db ++ [n]
                     /\ Notification.user n = claimer
                     /\ Notification.type n = food_completed
                     /\ Notification.food n = Some id
                     /\ Notification.fromUser n = Some (User._id user)
                     /\ Notification.read n = false
               | None => notifications db' = notifications db
               end
        else
          run (complete user id) db
          = (db, Some (res 400 (JMessage "Food must be claimed before completing")))
      else
        run (complete user id) db
        = (db, Some (res 403 (JMessage "Only the donor can mark as completed")))
  end.
Proof.
  rewrite run_complete.
  destruct (foods db !! id) as [food|]; [|done].
  repeat case_decide; try done.
  destruct (Food.claimedBy food) as [claimer|] eqn:Hc.
  - eexists. simpl. split; [reflexivity|]. simpl.
    repeat split; [done|]. eexists. by repeat split.
  - eexists. simpl. split; [reflexivity|]. by repeat split.
Qed.

(** C5.  A claim or a complete that does not answer 200 (it then answers
    404, 403 or 400, or the 500 of a claim whose listing has no resolvable
    donor) leaves the stores exactly as they were: the listing keeps its
    status and claimedBy, and no notification is created. *)
Theorem failed_transition_changes_nothing
    (user : User.t) (id : ObjectId) (db db' : Store) (reply : Reply) :
  run (claim user id) db = (db', Some reply)
  \/ run (complete user id) db = (db', Some reply) ->
  code reply <> 200%nat ->
  db' = db
  /\ foods db' !! id = foods db !! id
  /\ notifications db' = notifications db
  /\ code reply ∈ [400; 403; 404; 500]%nat.
Proof.
  intros [Hrun|Hrun] Hcode.
  - rewrite run_claim in Hrun.
    destruct (foods db !! id) as [food|] eqn:Hfood;
      repeat case_decide; simplify_eq/=;
      repeat split; rewrite ?elem_of_cons; auto.
  - rewrite run_complete in Hrun.
    destruct (foods db !! id) as [food|] eqn:Hfood;
      repeat case_decide; try destruct (Food.claimedBy food);
      simplify_eq/=;
      repeat split; rewrite ?elem_of_cons; auto.
Qed.

(** C6, as the code has it.  Creating a listing at time [clock db]
    answers 400 (ValidationError) when name or address is missing or empty;
    otherwise, when the Food schema accepts the data ([validates]: a
    trimmed name of 1 to 100 characters, a trimmed description of at most
    500, a non-empty trimmed address, no NaN coordinate), it stores under a
    fresh id a listing with status available, claimedBy null, the caller as
    donor and expiresAt 24 hours (86,400,000 ms) after the time at which
    the handler builds the listing, and answers 201 with it; createdAt is
    the time of the save, [lag] milliseconds later, so that expiresAt is
    createdAt plus 24 hours less that lag.  And when the schema refuses the
    data it answers 500 (ServerError) and stores nothing. *)
Theorem create_spec (user : User.t) (body : Body.t) (file : option string)
    (lag : N) (db : Store) :
  if negb (JS.truthy (Body.name body)) || negb (JS.truthy (Body.address body))
  then
    run (create user body file lag) db
    = (db, Some (res 400 (JMessage "Please provide food name and address")))
  else if validates (foodData user body file) then
    exists food,
      run (create user body file lag) db
      = (mkDB (<[fresh db := food]> (foods db)) (notifications db)
              (N.succ (fresh db)) (clock db + Z.of_N lag),
         Some (res 201 (JFood (fresh db, food))))
      /\ Food.status food = available
      /\ Food.claimedBy food = None
      /\ Food.donor food = User._id user
      /\ Food.expiresAt food = clock db + 86400000
      /\ Food.createdAt food = clock db + Z.of_N lag
      /\ Food.expiresAt food = Food.createdAt food + 86400000 - Z.of_N lag
  else
    run (create user body file lag) db
    = (db, Some (res 500 (JMessage "Server error creating food listing"))).
Proof.
  rewrite run_create.
  destruct (negb (JS.truthy (Body.name body))
            || negb (JS.truthy (Body.address body))); [done|].
  destruct (validates (foodData user body file)) eqn:Hv.
  - pose proof (Food_new_validates _ (clock db) (clock db + Z.of_N lag) Hv)
      as Hnew.
    rewrite Hnew. eexists. split; [reflexivity|].
    apply Food_new_lifecycle in Hnew as (?&?&?&Hexp&Hcreated).
    repeat split; try done. lia.
  - by rewrite (Food_new_rejects _ _ _ Hv).
Qed.

(** C7.  In every state of the stores, so in every state that any sequence
    of operations leads to, listAvailable answers 200 with exactly the
    stored listings whose status is available, each once, ordered by
    createdAt descending; no listing of another status is in the answer,
    and the stores are not changed. *)
Theorem listAvailable_spec (db : Store) :
  exists l,
    run listAvailable db = (db, Some (res 200 (JFoods l)))
    /\ (forall id food,
          (id, food) ∈ l <->
          foods db !! id = Some food /\ Food.status food = available)
    /\ NoDup l
    /\ StronglySorted newest_first l
    /\ Forall (fun d => Food.status d.2 = available) l.
Proof.
  exists (Food_find (fun f => Food.status f = available) db).2.
  destruct (Food_find_spec (fun f => Food.status f = available) db)
    as (Hin & Hnd & Hsorted).
  split; [by unfold listAvailable; rewrite run_catch|].
  split; [exact Hin|]. split; [exact Hnd|]. split; [exact Hsorted|].
  apply Forall_forall. intros [id food] Hd. by apply Hin in Hd as [_ ?].
Qed.

(** C8.  markAllRead for [user] answers 200; afterwards the user's
    unreadCount is 0 and every notification of the user is read; the
    notifications of other users, and the listings, are as before; and a
    second markAllRead answers 200 again and changes nothing. *)
Theorem markAllRead_spec (user : User.t) (db : Store) :
  let ok := res 200 (JMessage "All notifications marked as read") in
  let db' := after (PutReadAll user) db in
  run (markAllRead user) db = (db', Some ok)
  /\ unreadCount (User._id user) db' = 0%nat
  /\ (forall n, n ∈ notifications db' ->
        Notification.user n = User._id user -> Notification.read n = true)
  /\ length (notifications db') = length (notifications db)
  /\ (forall i n, notifications db !! i = Some n ->
        Notification.user n <> User._id user ->
        notifications db' !! i = Some n)
  /\ foods db' = foods db
  /\ run (markAllRead user) db' = (db', Some ok).
Proof.
  unfold after. cbv [handler]. unfold markAllRead. rewrite !run_catch. simpl.
  split; [done|]. split; [|split; [|split; [|split; [|split]]]].
  - unfold unreadCount; simpl. by rewrite updateMany_none_left.
  - intros n Hn Huser.
    destruct (Notification.read n) eqn:Hread; [done|].
    assert (Hin : n ∈ filter (unread_of (User._id user))
                        ((fun n => if decide (unread_of (User._id user) n)
                                   then Notification.set_read true (clock db) n
                                   else n) <$> notifications db)).
    { apply list_elem_of_filter. by split. }
    rewrite updateMany_none_left in Hin. by apply elem_of_nil in Hin.
  - by rewrite length_fmap.
  - intros i n Hi Hother. rewrite list_lookup_fmap, Hi. simpl.
    rewrite decide_False; [done|]. unfold unread_of. tauto.
  - done.
  - rewrite updateMany_nothing_to_do; [done|]. apply updateMany_none_left.
Qed.

(** C9.  Deleting listing [id] as [user] answers 404 (NotFound) when the
    listing is absent and 403 (Forbidden) when the caller is not its donor,
    changing nothing; for the donor it succeeds whatever the status of the
    listing, removes the listing and nothing else, and a get of that id
    then answers 404. *)
Theorem delete_spec (user : User.t) (id : ObjectId) (db : Store) :
  match foods db !! id with
  | None =>
      run (deleteFood user id) db
      = (db, Some (res 404 (JMessage "Food listing not found")))
  | Some food =>
      if decide (Food.donor food = User._id user) then
        let db' := mkDB (base.delete id (foods db)) (notifications db)
                        (fresh db) (clock db) in
        run (deleteFood user id) db
        = (db', Some (res 200 (JMessage "Food listing removed")))
        /\ run (get id) db'
           = (db', Some (res 404 (JMessage "Food listing not found")))
      else
        run (deleteFood user id) db
        = (db, Some (res 403 (JMessage "Not authorized to delete this listing")))
  end.
Proof.
  rewrite run_deleteFood.
  destruct (foods db !! id) as [food|]; [|done].
  repeat case_decide; try done.
  split; [done|]. rewrite run_get. simpl. by rewrite lookup_delete_eq.
Qed.

(** C10, as the code has it.  An update of listing [food], stored under
    [id], by its donor: when the body passes the casts and validators of the
    schema ([runValidators]), every path the body carries, status and
    claimedBy among them, is written into the listing ([written]: name,
    description and address trimmed, the other paths as given) and the
    listing is answered with 200; so the donor can set status and claimedBy
    directly, outside the claim and complete transitions.  When the body
    does not pass (a status outside the enum, say), the answer is 500
    (ServerError) and nothing is written. *)
Theorem update_by_donor (user : User.t) (id : ObjectId) (body : Body.t)
    (file : option string) (db : Store) (food : Food) :
  foods db !! id = Some food ->
  Food.donor food = User._id user ->
  match castUpdate (updates body file) with
  | Some u =>
      let food' := applyUpdate u (clock db) food in
      run (update user id body file) db
      = (mkDB (<[id := food']> (foods db)) (notifications db) (fresh db)
              (clock db),
         Some (res 200 (JFood (id, food'))))
      /\ written (updates body file) food food'
  | None =>
      run (update user id body file) db = (db, Some server_error)
  end.
Proof.
  intros Hfood Hdonor. rewrite run_update, Hfood.
  rewrite decide_False by tauto.
  destruct (castUpdate (updates body file)) as [u|] eqn:Hu; [|done].
  split; [done|]. by apply castUpdate_written.
Qed.

(** C2, as the code has it.  In every state reached from the empty stores
    by requests that leave status and claimedBy to the claim and complete
    transitions (create, delete, claim, complete, markAllRead, the queries,
    and updates whose body carries neither status nor claimedBy), every
    listing has a claimer exactly when its status is claimed or
    completed. *)
Theorem lifecycle_invariant_reachable (db : Store) :
  reachable_by leaves_lifecycle_paths db -> lifecycle_invariant db.
Proof.
  induction 1 as [|db dt _ IH _|db r _ IH Hr].
  - intros id food. unfold init; simpl. by rewrite lookup_empty.
  - by apply (lifecycle_same_foods db).
  - by apply lifecycle_after.
Qed.

(** When the first claim is served before the second loads, the second is
    refused. *)
Lemma claims_in_turn (u1 u2 : User.t) (id : ObjectId) (db : Store) (food : Food) :
  foods db !! id = Some food ->
  Food.status food = available ->
  is_Some (populate (Food.donor food)) ->
  Food.donor food <> User._id u1 ->
  interleave one_after_the_other (claim u1 id) (claim u2 id) db =
    (mkDB (<[id := claimed_by u1 (clock db) food]> (foods db))
          (notifications db ++ [claim_notification u1 id food db])
          (N.succ (fresh db)) (clock db),
     Ret (res 200 (JFood (id, claimed_by u1 (clock db) food))),
     Ret (res 400 (JMessage "This food has already been claimed"))).
Proof.
  intros Hfood Hst Hp Hd1. apply N.eqb_neq in Hd1.
  destruct (populate_Some _ Hp) as (name & avatar & Hdonor).
  unfold one_after_the_other, claim. simpl.
  rewrite Hfood. simpl.
  rewrite bool_decide_eq_true_2 by done. simpl.
  rewrite Hdonor. simpl.
  rewrite Hd1. simpl.
  unfold Food_save. simpl. rewrite Hfood. simpl.
  unfold Notification_create. simpl.
  change (claim_message u1 _) with (claim_message u1 food).
  rewrite claim_message_nonempty. simpl.
  rewrite lookup_insert_eq. simpl.
  by destruct food.
Qed.

(** C3: what the code does.  Two users, neither the donor, claim the same
    available listing of a donor that the User collection holds, and both
    requests load it before either saves: both are answered 200, each with
    its own id as claimedBy; the listing keeps the second claimer, and the
    donor gets two claim_request notifications.  Nobody is answered 400. *)
Theorem concurrent_claims_both_succeed
    (u1 u2 : User.t) (id : ObjectId) (db : Store) (food : Food) :
  foods db !! id = Some food ->
  Food.status food = available ->
  is_Some (populate (Food.donor food)) ->
  Food.donor food <> User._id u1 ->
  Food.donor food <> User._id u2 ->
  exists db' food1 food2,
    interleave both_load_first (claim u1 id) (claim u2 id) db
    = (db', Ret (res 200 (JFood (id, food1))), Ret (res 200 (JFood (id, food2))))
    /\ Food.claimedBy food1 = Some (User._id u1)
    /\ Food.claimedBy food2 = Some (User._id u2)
    /\ foods db' !! id = Some food2
    /\ length (notifications db') = (length (notifications db) + 2)%nat.
Proof.
  intros Hfood Hst Hp Hd1 Hd2.
  rewrite (claims_race u1 u2 id db food) by done.
  eexists _, _, _. split; [reflexivity|]. simpl.
  split; [done|]. split; [done|]. split.
  - by rewrite lookup_insert_eq.
  - rewrite length_app. simpl. lia.
Qed.

End Properties.

(** ** More of the code *)

Section MoreProperties.

Context `{JSNumber} `{Users}.

Local Abbreviation Food := Food.t.
Local Abbreviation Store := DB.
Local Abbreviation Reply := Response.

(** *** One request and one listing *)

Lemma after_listing_step (r : Request) (db : Store) (id : ObjectId) :
  listing_step db id r (foods db !! id) (foods (after r db) !! id).
Proof.
  unfold after.
  destruct r as [| |id'|user body file lag|user id' body file|user id'|user id'
                 |user id'|user|user]; cbv [handler].
  - unfold listAvailable; rewrite run_catch; constructor.
  - unfold listAll; rewrite run_catch; constructor.
  - rewrite run_get; constructor.
  - rewrite run_create.
    destruct (negb _ || negb _); [constructor|].
    destruct (Food_new _ _ _) as [f|] eqn:Hnew; [|constructor]. simpl.
    rewrite lookup_insert. case_decide; [|constructor].
    subst. by constructor.
  - rewrite run_update.
    destruct (foods db !! id') as [f|] eqn:Hf; [|constructor].
    case_decide as Hd; [constructor|].
    destruct (castUpdate _) as [u|] eqn:Hu; [|constructor]. simpl.
    rewrite lookup_insert. case_decide; [|constructor].
    subst. rewrite Hf. by constructor.
  - rewrite run_deleteFood.
    destruct (foods db !! id') as [f|] eqn:Hf; [|constructor].
    case_decide as Hd; [constructor|]. simpl.
    rewrite lookup_delete. case_decide; [|constructor].
    subst. rewrite Hf. by constructor.
  - rewrite run_claim.
    destruct (foods db !! id') as [f|] eqn:Hf; [|constructor].
    case_decide as Hst; [constructor|].
    case_decide as Hp; [|constructor].
    case_decide as Hd; [constructor|]. simpl.
    rewrite lookup_insert. case_decide; [|constructor].
    subst. rewrite Hf. by constructor.
  - rewrite run_complete.
    destruct (foods db !! id') as [f|] eqn:Hf; [|constructor].
    case_decide as Hd; [constructor|].
    case_decide as Hst; [constructor|].
    destruct (Food.claimedBy f); simpl;
      (rewrite lookup_insert; case_decide; [|constructor]);
      subst; rewrite Hf; by constructor.
  - unfold listNotifications; rewrite run_catch; constructor.
  - unfold markAllRead; rewrite run_catch; constructor.
Qed.

(** The counter never hands out an id twice. *)
Lemma fresh_after (r : Request) (db : Store) :
  (fresh db <= fresh (after r db))%N.
Proof.
  unfold after.
  destruct r as [| |id'|user body file lag|user id' body file|user id'|user id'
                 |user id'|user|user]; cbv [handler].
  - by unfold listAvailable; rewrite run_catch.
  - by unfold listAll; rewrite run_catch.
  - by rewrite run_get.
  - rewrite run_create.
    destruct (negb _ || negb _); [done|].
    destruct (Food_new _ _ _); simpl; lia.
  - rewrite run_update.
    destruct (foods db !! id'); [|done].
    case_decide; [done|]. by destruct (castUpdate _).
  - rewrite run_deleteFood.
    destruct (foods db !! id'); [|done]. by case_decide.
  - rewrite run_claim.
    destruct (foods db !! id'); [|done].
    repeat case_decide; simpl; lia.
  - rewrite run_complete.
    destruct (foods db !! id') as [f|]; [|done].
    repeat case_decide; try done. destruct (Food.claimedBy f); simpl; lia.
  - by unfold listNotifications; rewrite run_catch.
  - by unfold markAllRead; rewrite run_catch.
Qed.

Lemma ids_allocated_after (r : Request) (db : Store) :
  ids_allocated db -> ids_allocated (after r db).
Proof.
  intros Hdb id f' Hf'.
  pose proof (fresh_after r db) as Hfresh.
  pose proof (after_listing_step r db id) as Hstep. rewrite Hf' in Hstep.
  assert (Hold : forall f, foods db !! id = Some f -> (id < fresh (after r db))%N).
  { intros f Hf. apply Hdb in Hf. lia. }
  inversion Hstep as [r' o Ho| ? ? ? ? ? ? Hid Hnew| ? ? ? f u ? ? Hr Ho
                      | | ? f ? ? ? Hr Ho | ? f ? ? Hr Ho]; subst.
  - by apply (Hold f').
  - unfold after; cbv [handler]. rewrite run_create.
    destruct (negb _ || negb _) eqn:Hcheck.
    { unfold after in Hf'; cbv [handler] in Hf'. rewrite run_create, Hcheck in Hf'.
      apply Hdb in Hf'. lia. }
    rewrite Hnew. simpl. lia.
  - by apply (Hold f).
  - by apply (Hold f).
  - by apply (Hold f).
Qed.

Lemma reachable_ids_allocated (allowed : Request -> Prop) (db : Store) :
  reachable_by allowed db -> ids_allocated db.
Proof.
  induction 1 as [|db dt _ IH _|db r _ IH _].
  - intros id f. unfold init; simpl. by rewrite lookup_empty.
  - exact IH.
  - by apply ids_allocated_after.
Qed.

Lemma updates_lifecycle_paths (body : Body.t) (file : option string) :
  Body.status (updates body file) = Body.status body
  /\ Body.claimedBy (updates body file) = Body.claimedBy body
  /\ Body.donor (updates body file) = Body.donor body.
Proof. by destruct file. Qed.

(** X4.  The status of a listing only moves forward, one step at a time:
    in a reachable state, a request that leaves status and claimedBy to the
    transitions either keeps the status of a listing or is the claim that
    takes it from available to claimed or the complete that takes it from
    claimed to completed. *)
Theorem status_moves_forward (r : Request) (db : Store) (id : ObjectId)
    (f f' : Food) :
  reachable db ->
  leaves_lifecycle_paths r ->
  foods db !! id = Some f ->
  foods (after r db) !! id = Some f' ->
  (Food.status f' = Food.status f
   \/ (exists user, r = PostClaim user id
        /\ Food.status f = available /\ Food.status f' = claimed)
   \/ (exists user, r = PutComplete user id
        /\ Food.status f = claimed /\ Food.status f' = completed))
  /\ (rank (Food.status f) <= rank (Food.status f') <= rank (Food.status f) + 1)%nat.
Proof.
  intros Hreach Hr Hf Hf'.
  apply reachable_ids_allocated in Hreach.
  pose proof (after_listing_step r db id) as Hstep. rewrite Hf, Hf' in Hstep.
  inversion Hstep as [| ? ? ? ? ? ? Hid Hnew| ? body file ? u ? Hu Hreq
                      | | ? ? Hst ? ? Hreq | ? ? ? Hst Hreq]; subst.
  - split; [by left | lia].
  - apply Hreach in Hf. lia.
  - apply (castUpdate_written _ _ (clock db) f) in Hu as (_&_&_&_&_&_&Hst&_).
    destruct Hr as [Hbs _].
    destruct (updates_lifecycle_paths body file) as (Hs & _).
    rewrite Hs, Hbs in Hst. rewrite Hst. split; [by left | lia].
  - simpl. rewrite Hst. split; [right; left; eauto | simpl; lia].
  - simpl. rewrite Hst. split; [right; right; eauto | simpl; lia].
Qed.

Lemma no_own_claim_after (r : Request) (db : Store) :
  leaves_ownership_paths r -> no_own_claim db -> no_own_claim (after r db).
Proof.
  intros Hr Hdb id f' Hf'.
  pose proof (after_listing_step r db id) as Hstep. rewrite Hf' in Hstep.
  inversion Hstep as [? ? Ho| ? ? ? ? ? ? Hid Hnew| ? body file f u ? Hu Hreq Ho
                      | | ? f Hst ? Hd Hreq Ho | ? f ? Hst Hreq Ho]; subst.
  - by apply (Hdb id).
  - apply Food_new_lifecycle in Hnew as (_ & -> & _). done.
  - apply (castUpdate_written _ _ (clock db) f) in Hu
      as (_&_&_&_&_&_&_&Hdonor&Hc&_).
    destruct Hr as (_ & Hbc & Hbd).
    destruct (updates_lifecycle_paths body file) as (_ & Hc' & Hd').
    rewrite Hc', Hbc in Hc. rewrite Hd', Hbd in Hdonor.
    rewrite Hc, Hdonor. simpl. by apply (Hdb id).
  - simpl. intros [= Huser]. by apply Hd.
  - simpl. by apply (Hdb id).
Qed.

(** X5.  Nobody ends up as the claimer of their own listing: in every state
    reached from the empty stores by requests that leave status, claimedBy
    and donor alone (everything but an update whose body carries one of
    them), the claimer of each listing differs from its donor. *)
Theorem no_own_claim_reachable (db : Store) :
  reachable_by leaves_ownership_paths db -> no_own_claim db.
Proof.
  induction 1 as [|db dt _ IH _|db r _ IH Hr].
  - intros id f. unfold init; simpl. by rewrite lookup_empty.
  - exact IH.
  - by apply no_own_claim_after.
Qed.

(** X6.  Only the donor writes a listing, a claim apart: in a reachable
    state, a request made by anyone but the donor of a listing (or by
    nobody) leaves the listing exactly as it is, unless it is a claim of
    that listing while available, which stores the requester as claimer and
    changes nothing else but status and updatedAt. *)
Theorem only_the_donor_writes (r : Request) (db : Store) (id : ObjectId)
    (f : Food) :
  reachable db ->
  foods db !! id = Some f ->
  (forall user, requester r = Some user -> User._id user <> Food.donor f) ->
  foods (after r db) !! id = Some f
  \/ exists user,
       r = PostClaim user id
       /\ Food.status f = available
       /\ foods (after r db) !! id = Some (claimed_by user (clock db) f).
Proof.
  intros Hreach Hf Hother.
  apply reachable_ids_allocated in Hreach.
  pose proof (after_listing_step r db id) as Hstep. rewrite Hf in Hstep.
  inversion Hstep; simplify_eq.
  - by left.
  - apply Hreach in Hf. lia.
  - exfalso. eapply Hother; [reflexivity | by symmetry].
  - exfalso. eapply Hother; [reflexivity | by symmetry].
  - right. eauto.
  - exfalso. eapply Hother; [reflexivity | by symmetry].
Qed.

(** *** Stored listings are valid *)

Lemma trimEnd_idempotent (s : string) : JS.trimEnd (JS.trimEnd s) = JS.trimEnd s.
Proof.
  induction s as [|a s IH]; [done|]. simpl.
  destruct (JS.trimEnd s) as [|b t] eqn:Ht.
  - destruct (JS.is_whitespace a) eqn:Ha; [done|]. simpl. by rewrite Ha.
  - change (JS.trimEnd (String a (String b t)))
      with (match JS.trimEnd (String b t) with
            | EmptyString =>
                if JS.is_whitespace a then EmptyString else String a EmptyString
            | t' => String a t'
            end).
    by rewrite IH.
Qed.

Lemma trimStart_started (c : ascii) (r : string) :
  JS.is_whitespace c = false -> JS.trimStart (String c r) = String c r.
Proof. intros Hc. simpl. by rewrite Hc. Qed.

(** Trimming twice is trimming once. *)
Lemma trim_idempotent (s : string) : JS.trim (JS.trim s) = JS.trim s.
Proof.
  unfold JS.trim.
  destruct (JS.trimStart s) as [|c r] eqn:Hs; [done|].
  assert (Hc : JS.is_whitespace c = false).
  { clear -Hs. induction s as [|a s IH]; [done|]. simpl in Hs.
    destruct (JS.is_whitespace a) eqn:Ha; [by apply IH|]. by simplify_eq. }
  assert (Hend : exists r', JS.trimEnd (String c r) = String c r').
  { simpl. rewrite Hc. destruct (JS.trimEnd r); eauto. }
  destruct Hend as (r' & Hend).
  rewrite Hend, (trimStart_started c r' Hc), <- Hend.
  apply trimEnd_idempotent.
Qed.

Lemma cast_name_valid s s' :
  cast_name s = Some s' ->
  s' <> EmptyString /\ (String.length s' <= 100)%nat /\ JS.trim s' = s'.
Proof.
  unfold cast_name.
  destruct (String.eqb (JS.trim s) EmptyString) eqn:He; [done|].
  destruct (100 <? String.length (JS.trim s))%nat eqn:Hl; [done|].
  simpl. intros [= <-]. apply String.eqb_neq in He. apply Nat.ltb_ge in Hl.
  split; [done|]. split; [done|]. apply trim_idempotent.
Qed.

Lemma cast_description_valid s s' :
  cast_description s = Some s' ->
  (String.length s' <= 500)%nat /\ JS.trim s' = s'.
Proof.
  unfold cast_description.
  destruct (500 <? String.length (JS.trim s))%nat eqn:Hl; [done|].
  intros [= <-]. apply Nat.ltb_ge in Hl. split; [done|]. apply trim_idempotent.
Qed.

Lemma cast_address_valid s s' :
  cast_address s = Some s' -> s' <> EmptyString /\ JS.trim s' = s'.
Proof.
  unfold cast_address.
  destruct (String.eqb (JS.trim s) EmptyString) eqn:He; [done|].
  intros [= <-]. apply String.eqb_neq in He. split; [done|]. apply trim_idempotent.
Qed.

Lemma cast_number_valid x y :
  cast_number x = Some y -> isNaN y = false.
Proof. unfold cast_number. destruct (isNaN x) eqn:Hx; [done|]. by intros [= <-]. Qed.

Lemma cast_number_string_valid s x :
  cast_number_string s = Some x -> from_option isNaN false x = false.
Proof.
  unfold cast_number_string.
  destruct (String.eqb s EmptyString); [by intros [= <-]|].
  destruct (cast_number (toNumber s)) as [y|] eqn:Hy; simpl; [|done].
  intros [= <-]. simpl. by apply cast_number_valid in Hy.
Qed.

Lemma Food_new_valid (data : FoodData) (built saved : Z) (f : Food) :
  Food_new data built saved = Some f -> schema_valid f.
Proof.
  unfold Food_new. intros Hnew.
  destruct (cast_name (data_name data)) as [n|] eqn:Hn; [|done].
  destruct (cast_description (data_description data)) as [d|] eqn:Hd; [|done].
  destruct (cast_address (data_address data)) as [a|] eqn:Ha; [|done].
  destruct (cast_optional cast_number (data_latitude data)) as [la|] eqn:Hla;
    [|done].
  destruct (cast_optional cast_number (data_longitude data)) as [lo|] eqn:Hlo;
    [|done].
  simpl in Hnew. injection Hnew as <-.
  apply cast_name_valid in Hn as (? & ? & ?).
  apply cast_description_valid in Hd as (? & ?).
  apply cast_address_valid in Ha as (? & ?).
  apply cast_optional_Some in Hla, Hlo.
  unfold schema_valid; simpl. repeat split; try done.
  - destruct (data_latitude data);
      [destruct Hla as (?&?%cast_number_valid&->)|subst]; done.
  - destruct (data_longitude data);
      [destruct Hlo as (?&?%cast_number_valid&->)|subst]; done.
Qed.

Lemma castUpdate_valid (b : Body.t) (u : Update) (now : Z) (f : Food) :
  castUpdate b = Some u -> schema_valid f -> schema_valid (applyUpdate u now f).
Proof.
  unfold castUpdate.
  intros Hu (Hn0 & Hnl0 & Hd0 & Ha0 & Hla0 & Hlo0 & Htn0 & Htd0 & Hta0).
  destruct (cast_optional cast_name (Body.name b)) as [n|] eqn:Hn; [|done].
  destruct (cast_optional cast_description (Body.description b)) as [d|] eqn:Hd;
    [|done].
  destruct (cast_optional cast_address (Body.address b)) as [a|] eqn:Ha; [|done].
  destruct (cast_optional cast_number_string (Body.latitude b)) as [la|] eqn:Hla;
    [|done].
  destruct (cast_optional cast_number_string (Body.longitude b)) as [lo|] eqn:Hlo;
    [|done].
  destruct (cast_optional Status_of_string (Body.status b)) as [st|] eqn:Hst;
    [|done].
  simpl in Hu. injection Hu as <-.
  apply cast_optional_Some in Hn, Hd, Ha, Hla, Hlo.
  unfold schema_valid, applyUpdate; simpl.
  assert (Hname : default (Food.name f) n <> EmptyString
                  /\ (String.length (default (Food.name f) n) <= 100)%nat
                  /\ JS.trim (default (Food.name f) n) = default (Food.name f) n).
  { destruct (Body.name b); [destruct Hn as (?&?%cast_name_valid&->)|subst]; done. }
  assert (Hdesc : (String.length (default (Food.description f) d) <= 500)%nat
                  /\ JS.trim (default (Food.description f) d)
                     = default (Food.description f) d).
  { destruct (Body.description b);
      [destruct Hd as (?&?%cast_description_valid&->)|subst]; done. }
  assert (Haddr : default (Food.address f) a <> EmptyString
                  /\ JS.trim (default (Food.address f) a)
                     = default (Food.address f) a).
  { destruct (Body.address b);
      [destruct Ha as (?&?%cast_address_valid&->)|subst]; done. }
  destruct Hname as (? & ? & ?), Hdesc as (? & ?), Haddr as (? & ?).
  repeat split; try done.
  - destruct (Body.latitude b);
      [destruct Hla as (?&?%cast_number_string_valid&->)|subst]; done.
  - destruct (Body.longitude b);
      [destruct Hlo as (?&?%cast_number_string_valid&->)|subst]; done.
Qed.

Lemma schema_valid_after (r : Request) (db : Store) :
  (forall id f, foods db !! id = Some f -> schema_valid f) ->
  forall id f, foods (after r db) !! id = Some f -> schema_valid f.
Proof.
  intros Hdb id f' Hf'.
  pose proof (after_listing_step r db id) as Hstep. rewrite Hf' in Hstep.
  inversion Hstep; simplify_eq.
  - by apply (Hdb id).
  - by eapply Food_new_valid.
  - eapply castUpdate_valid; [done|]. by apply (Hdb id).
  - assert (schema_valid f) by (by apply (Hdb id)). by destruct f.
  - assert (schema_valid f) by (by apply (Hdb id)). by destruct f.
Qed.

(** X7.  Every stored listing satisfies the Food schema, whatever requests
    were served, updates with any body included: its name has 1 to 100
    characters, its description at most 500, its address is not empty, its
    coordinates are not NaN, and name, description and address carry no
    white space at either end (trimming them changes nothing). *)
Theorem stored_listings_are_valid (db : Store) (id : ObjectId) (f : Food) :
  reachable db -> foods db !! id = Some f -> schema_valid f.
Proof.
  intros Hreach. revert id f.
  induction Hreach as [|db dt _ IH _|db r _ IH _]; intros id f.
  - unfold init; simpl. by rewrite lookup_empty.
  - apply IH.
  - by apply schema_valid_after.
Qed.

(** *** Notifications *)

(** What one request does to the Notification collection: nothing, or the
    one append of a claim or a complete, or the bulk update of read-all. *)
Lemma after_notifications (r : Request) (db : Store) :
  notifications (after r db) = notifications db
  \/ (exists n user id,
        notifications (after r db) = notifications db ++ [n]
        /\ Notification.read n = false
        /\ Notification.fromUser n = Some (User._id user)
        /\ Notification.food n = Some id
        /\ ((r = PostClaim user id /\ Notification.type n = claim_request)
            \/ (r = PutComplete user id /\ Notification.type n = food_completed)))
  \/ (exists user,
        r = PutReadAll user
        /\ notifications (after r db)
           = (fun n => if decide (unread_of (User._id user) n)
                       then Notification.set_read true (clock db) n else n)
               <$> notifications db).
Proof.
  unfold after.
  destruct r as [| |id'|user body file lag|user id' body file|user id'|user id'
                 |user id'|user|user]; cbv [handler].
  - left. by unfold listAvailable; rewrite run_catch.
  - left. by unfold listAll; rewrite run_catch.
  - left. by rewrite run_get.
  - left. rewrite run_create.
    destruct (negb _ || negb _); [done|]. by destruct (Food_new _ _ _).
  - left. rewrite run_update.
    destruct (foods db !! id'); [|done].
    case_decide; [done|]. by destruct (castUpdate _).
  - left. rewrite run_deleteFood.
    destruct (foods db !! id'); [|done]. by case_decide.
  - rewrite run_claim.
    destruct (foods db !! id') as [f|]; [|by left].
    repeat case_decide; try by left.
    right; left. eexists _, user, id'. simpl. split; [done|]. eauto 10.
  - rewrite run_complete.
    destruct (foods db !! id') as [f|]; [|by left].
    repeat case_decide; try by left.
    destruct (Food.claimedBy f) as [claimer|]; [|by left].
    right; left. eexists _, user, id'. simpl. split; [done|]. eauto 10.
  - left. by unfold listNotifications; rewrite run_catch.
  - right; right. exists user. split; [done|].
    by unfold markAllRead; rewrite run_catch.
Qed.

(** X8.  Notifications are never deleted or rewritten.  Whatever the
    request, every notification stays at its place with the same recipient,
    type, message, listing and actor; the only change it can undergo is
    from unread to read, by the read-all of its recipient.  A request adds
    at most one notification, and only a claim or a complete adds one. *)
Theorem notifications_are_kept (r : Request) (db : Store) :
  (length (notifications db) <= length (notifications (after r db))
   <= length (notifications db) + 1)%nat
  /\ (length (notifications db) < length (notifications (after r db))
      -> exists user id, r = PostClaim user id \/ r = PutComplete user id)%nat
  /\ forall i n,
       notifications db !! i = Some n ->
       exists n',
         notifications (after r db) !! i = Some n'
         /\ Notification.set_read (Notification.read n) (Notification.updatedAt n) n'
            = n
         /\ (Notification.read n = true -> n' = n)
         /\ (n' <> n ->
             Notification.read n' = true
             /\ exists user,
                  r = PutReadAll user /\ Notification.user n = User._id user).
Proof.
  destruct (after_notifications r db)
    as [Hsame | [(n0 & user & id & Happ & _ & _ & _ & Hr) | (user & -> & Hmap)]].
  - rewrite Hsame. split; [lia|]. split; [lia|].
    intros i n Hi. exists n. split; [done|]. by destruct n.
  - rewrite Happ, length_app. simpl. split; [lia|]. split.
    + intros _. exists user, id. destruct Hr as [[-> _]|[-> _]]; auto.
    + intros i n Hi. exists n. split; [by apply lookup_app_l_Some|].
      by destruct n.
  - rewrite Hmap, length_fmap. split; [lia|]. split; [lia|].
    intros i n Hi. rewrite list_lookup_fmap, Hi. simpl.
    destruct (decide (unread_of (User._id user) n)) as [[Hu Hread]|Hnot].
    + eexists. split; [done|]. split; [by destruct n; simpl in *; subst|].
      split; [by rewrite Hread|]. intros _. split; [done|]. eauto.
    + exists n. split; [done|]. by destruct n.
Qed.

(** *** How the requests compose *)

Lemma run_myFood (user : User.t) (db : Store) :
  run (myFood user) db
  = (db, Some (users_res 200
                 (UFoods (Food_find (fun f => Food.donor f = User._id user) db).2))).
Proof. unfold myFood. by rewrite run_catch. Qed.

Lemma run_myClaims (user : User.t) (db : Store) :
  run (myClaims user) db
  = (db, Some (users_res 200
                 (UFoods (Food_find
                            (fun f => Food.claimedBy f = Some (User._id user)) db).2))).
Proof. unfold myClaims. by rewrite run_catch. Qed.

Lemma run_listAvailable (db : Store) :
  run listAvailable db
  = (db, Some (res 200 (JFoods (Food_find (fun f => Food.status f = available) db).2))).
Proof. unfold listAvailable. by rewrite run_catch. Qed.

Lemma run_listAll (db : Store) :
  run listAll db
  = (db, Some (res 200 (JFoods (Food_find (fun _ => True) db).2))).
Proof. unfold listAll. by rewrite run_catch. Qed.

(** X1.  A listing that create answers with is there to be read: a get of
    its id answers 200 with the same listing, the list of available
    listings contains it, and so does the caller's my-food. *)
Theorem created_listing_is_served (user : User.t) (body : Body.t)
    (file : option string) (lag : N) (db db' : Store) (id : ObjectId)
    (food : Food) :
  run (create user body file lag) db
  = (db', Some (res 201 (JFood (id, food)))) ->
  run (get id) db' = (db', Some (res 200 (JFood (id, food))))
  /\ (exists l, run listAvailable db' = (db', Some (res 200 (JFoods l)))
                /\ (id, food) ∈ l)
  /\ (exists l, run (myFood user) db' = (db', Some (users_res 200 (UFoods l)))
                /\ (id, food) ∈ l).
Proof.
  rewrite run_create.
  destruct (negb _ || negb _); [done|].
  destruct (Food_new _ _ _) as [f|] eqn:Hnew; [|done].
  intros [= <- <- <-].
  apply Food_new_lifecycle in Hnew as (Hst & _ & Hdonor & _).
  assert (Hstored : foods (mkDB (<[fresh db := f]> (foods db)) (notifications db)
                             (N.succ (fresh db)) (clock db + Z.of_N lag))
                    !! fresh db = Some f)
    by apply lookup_insert_eq.
  split; [|split].
  - rewrite run_get. by rewrite Hstored.
  - eexists. split; [apply run_listAvailable|].
    by apply (Food_find_spec (fun f => Food.status f = available)).
  - eexists. split; [apply run_myFood|].
    by apply (Food_find_spec (fun f => Food.donor f = User._id user)).
Qed.

(** *** Once claimed *)

(** No request moves a listing back in the lifecycle, unless it is an
    update that carries status or claimedBy; and no listing appears under an
    id that the counter has already passed. *)
Lemma rank_after (r : Request) (db : Store) (id : ObjectId) (k : nat) :
  leaves_lifecycle_paths r ->
  (id < fresh db)%N ->
  (forall f, foods db !! id = Some f -> (k <= rank (Food.status f))%nat) ->
  forall f', foods (after r db) !! id = Some f' ->
             (k <= rank (Food.status f'))%nat.
Proof.
  intros Hr Hid Hdb f' Hf'.
  pose proof (after_listing_step r db id) as Hstep. rewrite Hf' in Hstep.
  inversion Hstep as [? ? Ho| ? ? ? ? ? ? Hfresh Hnew| ? body file f u ? Hu Hreq Ho
                      | | ? f Hst ? Hd Hreq Ho | ? f ? Hst Hreq Ho]; subst.
  - by apply Hdb.
  - lia.
  - apply (castUpdate_written _ _ (clock db) f) in Hu as (_&_&_&_&_&_&Hst&_).
    destruct Hr as [Hbs _].
    destruct (updates_lifecycle_paths body file) as (Hs & _).
    rewrite Hs, Hbs in Hst. rewrite Hst. by apply Hdb.
  - specialize (Hdb f (eq_sym Ho)). rewrite Hst in Hdb. simpl in *. lia.
  - specialize (Hdb f (eq_sym Ho)). rewrite Hst in Hdb. simpl in *. lia.
Qed.

Lemma reaches_rank (db db' : Store) (id : ObjectId) (k : nat) :
  reaches leaves_lifecycle_paths db db' ->
  (id < fresh db)%N ->
  (forall f, foods db !! id = Some f -> (k <= rank (Food.status f))%nat) ->
  (id < fresh db')%N
  /\ forall f, foods db' !! id = Some f -> (k <= rank (Food.status f))%nat.
Proof.
  intros Hreach Hid Hdb.
  induction Hreach as [|db' dt _ IH _|db' r _ [IHid IH] Hr]; [done|done|].
  split.
  - pose proof (fresh_after r db'). lia.
  - by apply rank_after.
Qed.

(** What a claim and a complete answer for a listing that is past them. *)
Lemma claim_of_claimed (user : User.t) (id : ObjectId) (db : Store) :
  (forall f, foods db !! id = Some f -> (1 <= rank (Food.status f))%nat) ->
  run (claim user id) db =
    (db, Some match foods db !! id with
              | Some _ => res 400 (JMessage "This food has already been claimed")
              | None => res 404 (JMessage "Food listing not found")
              end).
Proof.
  intros Hdb. rewrite run_claim.
  destruct (foods db !! id) as [f|]; [|done].
  rewrite decide_True; [done|].
  intros Hst. specialize (Hdb f eq_refl). rewrite Hst in Hdb. simpl in Hdb. lia.
Qed.

Lemma complete_of_completed (user : User.t) (id : ObjectId) (db : Store) :
  (forall f, foods db !! id = Some f -> (2 <= rank (Food.status f))%nat) ->
  exists refusal,
    run (complete user id) db = (db, Some refusal)
    /\ code refusal ∈ [400; 403; 404]%nat.
Proof.
  intros Hdb. rewrite run_complete.
  destruct (foods db !! id) as [f|].
  - case_decide; [eexists; split; [done|]; simpl; rewrite !elem_of_cons; auto|].
    rewrite decide_True.
    + eexists; split; [done|]. simpl. rewrite !elem_of_cons. auto.
    + intros Hst. specialize (Hdb f eq_refl). rewrite Hst in Hdb.
      simpl in Hdb. lia.
  - eexists; split; [done|]. simpl. rewrite !elem_of_cons. auto.
Qed.

(** X2.  Served in turn, a listing is claimed once.  After a claim that was
    answered 200, and as long as no update carries status or claimedBy,
    every further claim of the listing is refused, whoever makes it,
    whatever requests were served in between and however much later: with
    400 "This food has already been claimed" while the listing is stored,
    with 404 once it has been deleted; and it changes nothing. *)
Theorem claimed_only_once (u1 u2 : User.t) (id : ObjectId) (db db1 db2 : Store)
    (reply : Reply) :
  reachable db ->
  run (claim u1 id) db = (db1, Some reply) ->
  code reply = 200%nat ->
  reaches leaves_lifecycle_paths db1 db2 ->
  run (claim u2 id) db2 =
    (db2, Some match foods db2 !! id with
               | Some _ => res 400 (JMessage "This food has already been claimed")
               | None => res 404 (JMessage "Food listing not found")
               end).
Proof.
  intros Hreach Hrun Hcode Hlater.
  apply reachable_ids_allocated in Hreach.
  rewrite run_claim in Hrun.
  destruct (foods db !! id) as [f|] eqn:Hf; [|by simplify_eq].
  apply Hreach in Hf.
  repeat case_decide; simplify_eq; try done.
  apply claim_of_claimed.
  apply (reaches_rank _ _ id 1) in Hlater as [_ Hrank]; [done|simpl; lia|].
  simpl. intros f'. rewrite lookup_insert_eq. by intros [= <-].
Qed.

(** X3.  Claim, then complete.  When the donor's complete is served on the
    stores as a claim by [claimer] that was answered 200 left them, at that
    time or later, it is answered 200, stores the listing as completed with
    the claimer kept, and appends one food_completed notification addressed
    to the claimer, about the listing, with the donor as actor.  From then
    on, as long as no update carries status or claimedBy, no claim and no
    complete of the listing succeeds, whatever requests are served in
    between: each is answered 400, 403 or 404 and changes nothing. *)
Theorem claim_then_complete (claimer owner : User.t) (id : ObjectId)
    (db db1 : Store) (f : Food) (reply : Reply) (dt : Z) :
  reachable db ->
  foods db !! id = Some f ->
  User._id owner = Food.donor f ->
  run (claim claimer id) db = (db1, Some reply) ->
  code reply = 200%nat ->
  exists db2 f2 n,
    run (complete owner id) (advance dt db1)
    = (db2, Some (res 200 (JFood (id, f2))))
    /\ foods db2 !! id = Some f2
    /\ Food.status f2 = completed
    /\ Food.claimedBy f2 = Some (User._id claimer)
    /\ notifications db2 = notifications db1 ++ [n]
    /\ Notification.user n = User._id claimer
    /\ Notification.type n = food_completed
    /\ Notification.food n = Some id
    /\ Notification.fromUser n = Some (User._id owner)
    /\ forall db3 user,
         reaches leaves_lifecycle_paths db2 db3 ->
         (exists refusal,
            run (claim user id) db3 = (db3, Some refusal)
            /\ code refusal ∈ [400; 404]%nat)
         /\ (exists refusal,
               run (complete user id) db3 = (db3, Some refusal)
               /\ code refusal ∈ [400; 403; 404]%nat).
Proof.
  intros Hreach Hf Howner. rewrite run_claim, Hf. intros Hrun Hcode.
  apply reachable_ids_allocated in Hreach. apply Hreach in Hf.
  repeat case_decide; simplify_eq; try done.
  rewrite run_complete. cbn [foods advance]. rewrite lookup_insert_eq.
  cbn [claimed_by Food.donor Food.status Food.claimedBy Food.set_updatedAt
       Food.set_claimedBy Food.set_status].
  rewrite decide_False by (intros Hne; by apply Hne).
  rewrite decide_False by (intros Hne; by apply Hne).
  eexists _, _, _. split; [reflexivity|].
  split; [apply lookup_insert_eq|].
  do 7 (split; [done|]).
  intros db3 user Hlater.
  apply (reaches_rank _ _ id 2) in Hlater as [_ Hrank].
  - split.
    + eexists. split; [apply claim_of_claimed|].
      * intros f' Hf'. apply Hrank in Hf'. lia.
      * destruct (foods db3 !! id); simpl; rewrite !elem_of_cons; auto.
    + by apply complete_of_completed.
  - simpl. lia.
  - simpl. intros f'. rewrite lookup_insert_eq. by intros [= <-].
Qed.

(** *** Queries: all listings, notifications, the profile *)

Lemma filter_all {A} (l : list A) : filter (fun _ => True) l = l.
Proof. induction l as [|x l IH]; [done|]. by rewrite filter_cons_True, IH. Qed.

Lemma length_filter_take {A} (P : A -> Prop) `{forall x, Decision (P x)}
    (n : nat) (l : list A) :
  (length (filter P (take n l)) <= length (filter P l))%nat.
Proof.
  revert n. induction l as [|x l IH]; intros n.
  - by rewrite take_nil.
  - destruct n as [|n].
    + change (take 0 (x :: l)) with (@nil A). rewrite filter_nil. simpl. lia.
    + change (take (S n) (x :: l)) with (x :: take n l).
      rewrite !filter_cons. specialize (IH n). case_decide; simpl; lia.
Qed.

(** X9.  listAll answers 200 with every stored listing, whatever its
    status, each once, ordered by createdAt descending, and changes
    nothing. *)
Theorem listAll_spec (db : Store) :
  exists l,
    run listAll db = (db, Some (res 200 (JFoods l)))
    /\ (forall id food, (id, food) ∈ l <-> foods db !! id = Some food)
    /\ NoDup l
    /\ StronglySorted newest_first l
    /\ length l = size (foods db).
Proof.
  eexists. split; [apply run_listAll|].
  destruct (Food_find_spec (fun _ => True) db) as (Hin & Hnd & Hsorted).
  split; [|split; [exact Hnd|split; [exact Hsorted|]]].
  - intros id food. rewrite Hin. tauto.
  - unfold Food_find; simpl. rewrite merge_sort_Permutation.
    rewrite filter_all. apply length_map_to_list.
Qed.

Lemma newest_notification_first_total : Total newest_notification_first.
Proof. intros a b. unfold newest_notification_first. lia. Qed.

Lemma newest_notification_first_transitive : Transitive newest_notification_first.
Proof. intros a b c. unfold newest_notification_first. lia. Qed.

Lemma StronglySorted_take {A} (R : relation A) (n : nat) (l : list A) :
  StronglySorted R l -> StronglySorted R (take n l).
Proof.
  intros Hl. revert n. induction Hl as [|x l Hl IH Hx]; intros [|n]; simpl;
    try constructor; [apply IH|].
  apply Forall_forall. intros y Hy. apply (proj1 (Forall_forall _ _) Hx).
  by apply (subseteq_take n l).
Qed.

(** X10.  The notification list of a user holds at most 50 notifications,
    all addressed to the user and all stored, newest first; unreadCount is
    the number of the user's unread notifications in the whole collection,
    not only among those listed, so it is at least the number of unread
    ones in the list.  The request changes nothing. *)
Theorem listNotifications_spec (user : User.t) (db : Store) :
  exists l count,
    run (listNotifications user) db
    = (db, Some (res 200 (JNotifications l count)))
    /\ (length l <= 50)%nat
    /\ (forall n, n ∈ l ->
          n ∈ notifications db /\ Notification.user n = User._id user)
    /\ StronglySorted newest_notification_first l
    /\ count = unreadCount (User._id user) db
    /\ (length (filter (fun n => Notification.read n = false) l) <= count)%nat.
Proof.
  unfold listNotifications. rewrite run_catch. simpl.
  eexists _, _. split; [reflexivity|].
  set (mine := filter (fun n => Notification.user n = User._id user)
                      (notifications db)).
  assert (Hperm : merge_sort newest_notification_first mine ≡ₚ mine)
    by apply merge_sort_Permutation.
  split; [|split; [|split; [|split]]].
  - rewrite length_take. lia.
  - intros n Hn. apply subseteq_take in Hn. rewrite Hperm in Hn.
    by apply list_elem_of_filter in Hn as [? ?].
  - apply StronglySorted_take, StronglySorted_merge_sort.
    + apply newest_notification_first_transitive.
    + apply newest_notification_first_total.
  - done.
  - unfold unreadCount, Notification_countDocuments; simpl.
    transitivity (length (filter (fun n => Notification.read n = false)
                            (merge_sort newest_notification_first mine))).
    { apply length_filter_take. }
    rewrite Hperm. unfold mine. rewrite list_filter_filter.
    apply Nat.eq_le_incl. f_equal. apply list_filter_iff.
    intros n. unfold unread_of. tauto.
Qed.

(** X11.  my-food answers 200 with exactly the stored listings whose donor
    is the caller, and my-claims with exactly those whose claimedBy is the
    caller, each listing once, newest first; neither changes anything. *)
Theorem my_listings_spec (user : User.t) (db : Store) :
  exists mine claims,
    run (myFood user) db = (db, Some (users_res 200 (UFoods mine)))
    /\ run (myClaims user) db = (db, Some (users_res 200 (UFoods claims)))
    /\ (forall id f, (id, f) ∈ mine <->
          foods db !! id = Some f /\ Food.donor f = User._id user)
    /\ (forall id f, (id, f) ∈ claims <->
          foods db !! id = Some f /\ Food.claimedBy f = Some (User._id user))
    /\ NoDup mine /\ NoDup claims
    /\ StronglySorted newest_first mine /\ StronglySorted newest_first claims.
Proof.
  eexists _, _. split; [apply run_myFood|]. split; [apply run_myClaims|].
  destruct (Food_find_spec (fun f => Food.donor f = User._id user) db)
    as (Hin1 & Hnd1 & Hs1).
  destruct (Food_find_spec (fun f => Food.claimedBy f = Some (User._id user)) db)
    as (Hin2 & Hnd2 & Hs2).
  split; [exact Hin1|]. split; [exact Hin2|]. done.
Qed.

Lemma length_Food_find (P : Food -> Prop) `{forall f, Decision (P f)} (db : Store) :
  length (Food_find P db).2 = (Food_countDocuments P db).2.
Proof.
  unfold Food_find, Food_countDocuments; simpl.
  by rewrite merge_sort_Permutation.
Qed.

Lemma completed_among (P : Food -> Prop) `{forall f, Decision (P f)} (db : Store) :
  (Food_countDocuments (fun f => P f /\ Food.status f = completed) db).2
  = length (filter (fun d => Food.status d.2 = completed) (Food_find P db).2).
Proof.
  unfold Food_find, Food_countDocuments; simpl.
  rewrite merge_sort_Permutation, list_filter_filter.
  f_equal. apply list_filter_iff. intros d. tauto.
Qed.

Lemma run_stats (user : User.t) (db : Store) :
  let userId := User._id user in
  let donated := (Food_countDocuments
                    (fun f => Food.donor f = userId /\ Food.status f = completed)
                    db).2 in
  let picked := (Food_countDocuments
                   (fun f => Food.claimedBy f = Some userId
                             /\ Food.status f = completed) db).2 in
  run (stats user) db
  = (db, Some (users_res 200
                 (UStats (mkStats
                            (Food_countDocuments (fun f => Food.donor f = userId) db).2
                            (Food_countDocuments
                               (fun f => Food.claimedBy f = Some userId) db).2
                            donated picked (donated + picked))))).
Proof. unfold stats. by rewrite run_catch. Qed.

(** X12.  The profile counts agree with the profile lists: foodShared is
    the number of listings my-food returns and foodClaimed the number
    my-claims returns; completedDonations and completedPickups count the
    completed ones among them, so neither exceeds its total; and
    totalCompleted is their sum. *)
Theorem stats_spec (user : User.t) (db : Store) :
  exists s mine claims,
    run (stats user) db = (db, Some (users_res 200 (UStats s)))
    /\ run (myFood user) db = (db, Some (users_res 200 (UFoods mine)))
    /\ run (myClaims user) db = (db, Some (users_res 200 (UFoods claims)))
    /\ foodShared s = length mine
    /\ foodClaimed s = length claims
    /\ completedDonations s
       = length (filter (fun d => Food.status d.2 = completed) mine)
    /\ completedPickups s
       = length (filter (fun d => Food.status d.2 = completed) claims)
    /\ (completedDonations s <= foodShared s)%nat
    /\ (completedPickups s <= foodClaimed s)%nat
    /\ totalCompleted s = (completedDonations s + completedPickups s)%nat.
Proof.
  eexists _, _, _.
  split; [apply run_stats|]. split; [apply run_myFood|].
  split; [apply run_myClaims|].
  cbn [foodShared foodClaimed completedDonations completedPickups totalCompleted].
  split; [by rewrite length_Food_find|]. split; [by rewrite length_Food_find|].
  split; [apply completed_among|]. split; [apply completed_among|].
  split; [|split; [|done]].
  - rewrite completed_among, <- length_Food_find. apply length_filter.
  - rewrite completed_among, <- length_Food_find. apply length_filter.
Qed.

(** Replacing one stored document moves a count by what the old and the new
    document contribute. *)
Lemma count_insert (P : Food -> Prop) `{forall f, Decision (P f)}
    (db db' : Store) (id : ObjectId) (f f' : Food) :
  foods db !! id = Some f ->
  foods db' = <[id := f']> (foods db) ->
  ((Food_countDocuments P db').2 + (if decide (P f) then 1 else 0)
   = (Food_countDocuments P db).2 + (if decide (P f') then 1 else 0))%nat.
Proof.
  intros Hf Hdb'. unfold Food_countDocuments; simpl.
  rewrite Hdb', <- (insert_delete_eq (foods db)).
  rewrite map_to_list_insert by apply lookup_delete_eq.
  rewrite <- (map_to_list_delete (foods db) id f Hf).
  rewrite !filter_cons. simpl.
  repeat case_decide; simpl; lia.
Qed.

(** X13.  A claim moves one profile count: when [user] claims a listing
    that did not already name them as claimer and is answered 200, their
    foodClaimed grows by exactly one, and their foodShared,
    completedDonations and completedPickups stay as they were. *)
Theorem claim_raises_foodClaimed (user : User.t) (id : ObjectId)
    (db db' : Store) (f : Food) (reply : Reply) (s s' : Stats) :
  foods db !! id = Some f ->
  Food.claimedBy f <> Some (User._id user) ->
  run (claim user id) db = (db', Some reply) ->
  code reply = 200%nat ->
  run (stats user) db = (db, Some (users_res 200 (UStats s))) ->
  run (stats user) db' = (db', Some (users_res 200 (UStats s'))) ->
  foodClaimed s' = S (foodClaimed s)
  /\ foodShared s' = foodShared s
  /\ completedDonations s' = completedDonations s
  /\ completedPickups s' = completedPickups s
  /\ totalCompleted s' = totalCompleted s.
Proof.
  intros Hf Hc Hrun Hcode.
  assert (Hdb' : foods db' = <[id := claimed_by user (clock db) f]> (foods db)
                 /\ Food.status f = available).
  { rewrite run_claim, Hf in Hrun. repeat case_decide; by simplify_eq. }
  destruct Hdb' as [Hdb' Hst].
  rewrite !run_stats. intros [= <-] [= <-].
  cbn [foodShared foodClaimed completedDonations completedPickups totalCompleted].
  pose proof (count_insert (fun f => Food.donor f = User._id user)
                db db' id _ _ Hf Hdb') as H1.
  pose proof (count_insert (fun f => Food.claimedBy f = Some (User._id user))
                db db' id _ _ Hf Hdb') as H2.
  pose proof (count_insert
                (fun f => Food.donor f = User._id user /\ Food.status f = completed)
                db db' id _ _ Hf Hdb') as H3.
  pose proof (count_insert
                (fun f => Food.claimedBy f = Some (User._id user)
                          /\ Food.status f = completed)
                db db' id _ _ Hf Hdb') as H4.
  unfold claimed_by in H1, H2, H3, H4. simpl in H1, H2, H3, H4.
  rewrite Hst in H3, H4.
  rewrite (decide_False (P := Food.claimedBy f = Some (User._id user))),
    decide_True in H2 by done.
  rewrite !decide_False in H3 by (by intros [_ ?]).
  rewrite !decide_False in H4 by (by intros [_ ?]).
  destruct (decide (Food.donor f = User._id user)); lia.
Qed.

(** *** What a card shows *)

(** X14.  timeAgo shows a count that is never zero or negative and that
    stays below the next unit: for a date [t] seen at time [now] it shows
    "just now" when less than a minute has passed (also for a date in the
    future), 1 to 59 minutes, 1 to 23 hours, or 1 or more days, each the
    elapsed time rounded down to that unit. *)
Theorem timeAgo_ranges (t now : Z) :
  match Client.ago (Some t) now with
  | Client.JustNow => now - t < 60000
  | Client.MinutesAgo m =>
      1 <= m < 60 /\ m * 60000 <= now - t < (m + 1) * 60000
  | Client.HoursAgo h =>
      1 <= h < 24 /\ h * 3600000 <= now - t < (h + 1) * 3600000
  | Client.DaysAgo d =>
      1 <= d /\ d * 86400000 <= now - t < (d + 1) * 86400000
  | _ => False
  end.
Proof.
  unfold Client.ago.
  destruct ((now - t) / 60000 <? 1) eqn:H1; [apply Z.ltb_lt in H1|apply Z.ltb_ge in H1].
  { Z.div_mod_to_equations. lia. }
  destruct ((now - t) / 60000 <? 60) eqn:H2; [apply Z.ltb_lt in H2|apply Z.ltb_ge in H2].
  { Z.div_mod_to_equations. lia. }
  destruct ((now - t) / 60000 / 60 <? 24) eqn:H3;
    [apply Z.ltb_lt in H3|apply Z.ltb_ge in H3].
  - Z.div_mod_to_equations. lia.
  - Z.div_mod_to_equations. lia.
Qed.

(** X15.  What the expiry badge shows for a listing as the server creates
    it, seen at any time from its createdAt on.  The badge reads "Expired"
    exactly when 24 hours have passed since the handler built the listing,
    which is at the latest 24 hours after createdAt, the time of the save;
    before that it shows 1 to 24 hours left, 24 only at the instant of the
    building, or, within the last hour, 0 to 59 minutes left. *)
Theorem expiry_badge_of_created (user : User.t) (body : Body.t)
    (file : option string) (lag : N) (db db' : Store) (id : ObjectId)
    (food : Food) (now : Z) :
  run (create user body file lag) db
  = (db', Some (res 201 (JFood (id, food)))) ->
  Food.createdAt food <= now ->
  Food.createdAt food = clock db + Z.of_N lag
  /\ match Client.until (Some (Food.expiresAt food)) now with
     | Client.Expired => clock db + 86400000 <= now
     | Client.HoursLeft h =>
         1 <= h <= 24 /\ (h = 24 <-> now = clock db)
         /\ now + h * 3600000 <= clock db + 86400000
     | Client.MinutesLeft m =>
         0 <= m < 60
         /\ clock db + 86400000 - 3600000 < now < clock db + 86400000
     | _ => False
     end
  /\ (Food.createdAt food + 86400000 <= now ->
      Client.until (Some (Food.expiresAt food)) now = Client.Expired).
Proof.
  rewrite run_create.
  destruct (negb _ || negb _); [done|].
  destruct (Food_new _ _ _) as [f|] eqn:Hnew; [|done].
  intros [= <- <- <-].
  apply Food_new_lifecycle in Hnew as (_ & _ & _ & -> & ->).
  intros Hnow. split; [done|].
  unfold Client.until.
  destruct (clock db + 86400000 - now <=? 0) eqn:H1;
    [apply Z.leb_le in H1|apply Z.leb_gt in H1].
  { split; [lia | done]. }
  split; [|lia].
  destruct ((clock db + 86400000 - now) / 3600000 <? 1) eqn:H2;
    [apply Z.ltb_lt in H2|apply Z.ltb_ge in H2].
  - Z.div_mod_to_equations. lia.
  - Z.div_mod_to_equations. lia.
Qed.


Lemma length_append (a b : string) :
  String.length (a ++ b) = (String.length a + String.length b)%nat.
Proof. induction a as [|c a IH]; simpl; [done|]. by rewrite IH. Qed.

Lemma append_empty_r (s : string) : (s ++ EmptyString)%string = s.
Proof.
  induction s as [|c s IH]; [done|].
  change (String c (s ++ EmptyString)%string = String c s). by f_equal.
Qed.

Lemma length_substring_0 (m : nat) (s : string) :
  String.length (String.substring 0 m s) = Nat.min m (String.length s).
Proof.
  revert s. induction m as [|m IH]; intros [|c s]; simpl; try done.
  by rewrite IH.
Qed.

Lemma substring_0_all (m : nat) (s : string) :
  (String.length s <= m)%nat -> String.substring 0 m s = s.
Proof.
  revert s. induction m as [|m IH]; intros [|c s]; simpl; try done; [lia|].
  intros Hs. rewrite IH; [done | lia].
Qed.

Lemma prefix_substring_0 (m : nat) (s : string) :
  String.prefix (String.substring 0 m s) s = true.
Proof.
  revert s. induction m as [|m IH]; intros [|c s]; simpl; try done.
  destruct (ascii_dec c c); [apply IH | done].
Qed.

(** X17.  The location badge of a card is never longer than 28 characters:
    it reads "Nearby" for an empty address, the address itself when that
    has at most 25 characters, and otherwise the first 25 characters of the
    address followed by three dots. *)
Theorem addressBadge_spec (address : string) :
  (String.length (Client.addressBadge address) <= 28)%nat
  /\ (address = EmptyString -> Client.addressBadge address = "Nearby")
  /\ (address <> EmptyString -> (String.length address <= 25)%nat ->
      Client.addressBadge address = address)
  /\ ((25 < String.length address)%nat ->
      Client.addressBadge address = (String.substring 0 25 address ++ "...")%string
      /\ String.length (Client.addressBadge address) = 28%nat
      /\ String.prefix (String.substring 0 25 address) address = true).
Proof.
  unfold Client.addressBadge.
  destruct address as [|c address].
  { simpl. split; [lia|]. split; [done|]. split; [done|]. lia. }
  cbn [JS.truthy].
  pose proof (length_substring_0 25 (String c address)) as Hlen.
  destruct (25 <? String.length (String c address))%nat eqn:Hlong;
    [apply Nat.ltb_lt in Hlong|apply Nat.ltb_ge in Hlong].
  - split; [rewrite length_append, Hlen; change (String.length "...") with 3%nat; lia|].
    split; [done|]. split; [lia|]. intros _.
    split; [done|]. split; [rewrite length_append, Hlen; change (String.length "...") with 3%nat; lia|].
    apply prefix_substring_0.
  - assert (Hall : (String.substring 0 25 (String c address) ++ "")%string
                   = String c address).
    { rewrite substring_0_all by done. apply append_empty_r. }
    rewrite Hall. split; [lia|]. split; [done|]. split; [done|]. lia.
Qed.

(** *** Avatar initials *)

Lemma not_whitespace_not_space (c : ascii) :
  JS.is_whitespace c = false -> Ascii.eqb c " " = false.
Proof.
  intros Hc. destruct (Ascii.eqb c " ") eqn:Heq; [|done].
  apply Ascii.eqb_eq in Heq. by subst.
Qed.

Lemma trimStart_first (s : string) :
  JS.trimStart s = EmptyString
  \/ exists c r, JS.trimStart s = String c r /\ JS.is_whitespace c = false.
Proof.
  induction s as [|c s IH]; simpl; [by left|].
  destruct (JS.is_whitespace c) eqn:Hc; [done|]. right. eauto.
Qed.

Lemma trimEnd_first (c : ascii) (r : string) :
  JS.is_whitespace c = false -> exists r', JS.trimEnd (String c r) = String c r'.
Proof. intros Hc. simpl. rewrite Hc. destruct (JS.trimEnd r); eauto. Qed.

Lemma trimEnd_last (s : string) :
  JS.trimEnd s = EmptyString
  \/ exists c, UserModel.last_char (JS.trimEnd s) = Some c
               /\ JS.is_whitespace c = false.
Proof.
  induction s as [|a s IH]; simpl; [by left|].
  destruct (JS.trimEnd s) as [|b t] eqn:Ht.
  - destruct (JS.is_whitespace a) eqn:Ha; [by left|]. right. eauto.
  - right. destruct IH as [|IH]; [done|]. exact IH.
Qed.

Lemma split_space_cons (s : string) :
  exists part parts, UserModel.split_space s = part :: parts.
Proof.
  induction s as [|c s (part & parts & IH)]; simpl; [eauto|].
  destruct (Ascii.eqb c " "); [eauto|]. rewrite IH. eauto.
Qed.

Lemma split_space_head (c : ascii) (r : string) :
  Ascii.eqb c " " = false ->
  exists part parts, UserModel.split_space (String c r) = String c part :: parts.
Proof.
  intros Hc. simpl. rewrite Hc.
  destruct (split_space_cons r) as (part & parts & ->). eauto.
Qed.

Lemma split_space_last (s : string) (c : ascii) :
  UserModel.last_char s = Some c ->
  Ascii.eqb c " " = false ->
  exists b part,
    last (UserModel.split_space s) = Some (String b part).
Proof.
  induction s as [|a s IH]; [done|].
  destruct s as [|a' s'].
  - simpl. intros [= ->] Hc. rewrite Hc. simpl. eauto.
  - intros Hlast Hc.
    change (UserModel.last_char (String a (String a' s')))
      with (UserModel.last_char (String a' s')) in Hlast.
    destruct (IH Hlast Hc) as (b & part & Hb).
    change (UserModel.split_space (String a (String a' s')))
      with (if Ascii.eqb a " "
            then EmptyString :: UserModel.split_space (String a' s')
            else match UserModel.split_space (String a' s') with
                 | p :: ps => String a p :: ps
                 | [] => [String a EmptyString]
                 end).
    destruct (split_space_cons (String a' s')) as (p & ps & Hsplit).
    rewrite Hsplit in *.
    destruct (Ascii.eqb a " ").
    + rewrite last_cons, Hb. eauto.
    + destruct ps as [|p' ps]; [simpl; eauto|].
      change (last (String a p :: p' :: ps)) with (last (p' :: ps)).
      change (last (p :: p' :: ps)) with (last (p' :: ps)) in Hb.
      rewrite Hb. eauto.
Qed.

(** X18.  The avatar initials never run into an undefined character.  For
    every name the string to upper-case is defined and has at most two
    characters: for a name whose trimmed form has two or more parts it is
    the first character of the trimmed name, which is not white space,
    followed by the first character of the last part; otherwise it is the
    first two characters of the name. *)
Theorem initials_spec (name : string) :
  let parts := UserModel.split_space (JS.trim name) in
  exists s,
    UserModel.initials name = Some s
    /\ (String.length s <= 2)%nat
    /\ ((2 <= length parts)%nat ->
        exists a b rest,
          s = String a (String b EmptyString)
          /\ UserModel.first_char (JS.trim name) = Some a
          /\ JS.is_whitespace a = false
          /\ last parts = Some (String b rest))
    /\ ((length parts < 2)%nat -> s = String.substring 0 2 name).
Proof.
  intros parts. unfold UserModel.initials. fold parts.
  destruct (2 <=? length parts)%nat eqn:Hparts;
    [apply Nat.leb_le in Hparts|apply Nat.leb_gt in Hparts].
  2:{ eexists. split; [done|]. split; [|split; [lia|done]].
      rewrite length_substring_0. lia. }
  unfold parts in *. unfold JS.trim in *.
  destruct (trimStart_first name) as [Hempty|(c & r & Hstart & Hc)].
  { rewrite Hempty in Hparts. simpl in Hparts. lia. }
  rewrite Hstart in *.
  destruct (trimEnd_first c r Hc) as (r' & Hend).
  destruct (trimEnd_last (String c r)) as [Hnil|(z & Hz & Hzws)];
    [by rewrite Hend in Hnil|].
  rewrite Hend in *.
  destruct (split_space_head c r' (not_whitespace_not_space c Hc))
    as (part & ps & Hsplit).
  destruct (split_space_last (String c r') z Hz (not_whitespace_not_space z Hzws))
    as (b & rest & Hlast).
  rewrite Hlast. rewrite Hsplit. rewrite Hsplit in Hparts. simpl in *.
  eexists. split; [done|]. split; [simpl; lia|]. split; [|lia].
  intros _. by exists c, b, rest.
Qed.

(** *** Putting back what was read *)

Lemma cast_name_same (s : string) :
  s <> EmptyString -> (String.length s <= 100)%nat -> JS.trim s = s ->
  cast_name s = Some s.
Proof.
  intros Hs Hl Ht. unfold cast_name. rewrite Ht.
  apply String.eqb_neq in Hs. rewrite Hs.
  by rewrite (proj2 (Nat.ltb_ge _ _) Hl).
Qed.

Lemma cast_description_same (s : string) :
  (String.length s <= 500)%nat -> JS.trim s = s -> cast_description s = Some s.
Proof.
  intros Hl Ht. unfold cast_description. rewrite Ht.
  by rewrite (proj2 (Nat.ltb_ge _ _) Hl).
Qed.

Lemma cast_address_same (s : string) :
  s <> EmptyString -> JS.trim s = s -> cast_address s = Some s.
Proof.
  intros Hs Ht. unfold cast_address. rewrite Ht.
  apply String.eqb_neq in Hs. by rewrite Hs.
Qed.

Lemma Status_of_to_string (st : Status) :
  Status_of_string (Status_to_string st) = Some st.
Proof. by destruct st. Qed.

(** X19.  Putting back what was read changes nothing but updatedAt: when
    the donor updates a valid stored listing with a body that carries the
    listing's own name, description, photo, address, status, donor,
    claimedBy and expiresAt, the update is answered 200 and the listing is
    stored as it was, with the new updatedAt. *)
Theorem update_with_same_body (user : User.t) (id : ObjectId) (db : Store)
    (f : Food) :
  foods db !! id = Some f ->
  schema_valid f ->
  Food.donor f = User._id user ->
  run (update user id (same_body f) None) db
  = (mkDB (<[id := Food.set_updatedAt (clock db) f]> (foods db))
          (notifications db) (fresh db) (clock db),
     Some (res 200 (JFood (id, Food.set_updatedAt (clock db) f)))).
Proof.
  intros Hf (Hn & Hnl & Hd & Ha & _ & _ & Htn & Htd & Hta) Hdonor.
  rewrite run_update, Hf.
  rewrite decide_False by (intros Hne; by apply Hne).
  unfold updates, castUpdate, same_body. cbn [Body.name Body.description
    Body.address Body.latitude Body.longitude Body.status Body.photo Body.donor
    Body.claimedBy Body.expiresAt cast_optional].
  rewrite (cast_name_same _ Hn Hnl Htn), (cast_description_same _ Hd Htd),
    (cast_address_same _ Ha Hta), Status_of_to_string.
  simpl. by destruct f.
Qed.

End MoreProperties.

(** ** The scenario, checked *)

Import Scenario.

Example trim_both_ends : JS.trim "  Day-old  bread " = "Day-old  bread".
Proof. reflexivity. Qed.

Example trim_blank : JS.trim "   " = EmptyString.
Proof. reflexivity. Qed.

(** A name of blanks passes the handler's check and fails the schema's. *)
Example blank_name_refused :
  let body := Body.mk (Some "   ") None None (Some "12 Main St") None None
                      None None None None in
  run (create alice body None 0) init
  = (init, Some (res 500 (JMessage "Server error creating food listing"))).
Proof. vm_compute. reflexivity. Qed.

(** The end-to-end scenario: Alice shares, Bob claims, Alice completes. *)
Example share_claim_complete :
  let db := after (PutComplete alice 0) (after (PostClaim bob 0) shared) in
  foods db !! 0%N
  = Some (Food.set_claimedBy (Some 101%N)
            (Food.set_status completed bread_listing))
  /\ (fun n => (Notification.user n, Notification.type n, Notification.food n,
                Notification.fromUser n)) <$> notifications db
     = [(100%N, claim_request, Some 0%N, Some 101%N);
        (101%N, food_completed, Some 0%N, Some 100%N)].
Proof. split; vm_compute; reflexivity. Qed.

(** Claimed listings are not listed as available. *)
Example claimed_is_not_listed :
  (run listAvailable shared).2 = Some (res 200 (JFoods [(0%N, bread_listing)]))
  /\ (run listAvailable (after (PostClaim bob 0) shared)).2
     = Some (res 200 (JFoods [])).
Proof. split; vm_compute; reflexivity. Qed.

Lemma shared_listing : foods shared !! 0%N = Some bread_listing.
Proof. vm_compute. reflexivity. Qed.

Lemma marked_listing :
  foods marked !! 0%N
  = Some (Food.set_status claimed bread_listing).
Proof. vm_compute. reflexivity. Qed.

Lemma marked_reachable : reachable marked.
Proof.
  unfold marked, shared.
  apply reachable_after; [|done]. apply reachable_after; [|done].
  apply reachable_init.
Qed.

(** C2: the invariant does not survive every update.  Alice's listing
    satisfies it after the create; her update with the body
    [{ status: "claimed" }] is answered 200 and leaves the listing claimed
    with no claimer. *)
Lemma update_breaks_lifecycle_invariant :
  lifecycle_invariant shared
  /\ run (update alice 0 (status_only "claimed") None) shared
     = (marked, Some (res 200 (JFood (0%N, Food.set_status claimed bread_listing))))
  /\ reachable marked
  /\ ~ lifecycle_invariant marked.
Proof.
  split; [|split; [|split]].
  - unfold shared. apply lifecycle_after; [done|].
    intros id food. unfold init; simpl. by rewrite lookup_empty.
  - vm_compute. reflexivity.
  - exact marked_reachable.
  - intros Hinv. destruct (Hinv _ _ marked_listing) as [_ Hclaimer].
    destruct Hclaimer as [claimer Hclaimer]; [by left | discriminate].
Qed.

(** C2, witnessed: the invariant after a create, a claim and a complete. *)
Lemma lifecycle_invariant_reachable_witness :
  lifecycle_invariant (after (PutComplete alice 0) (after (PostClaim bob 0) shared)).
Proof.
  apply (lifecycle_invariant_reachable
           (after (PutComplete alice 0) (after (PostClaim bob 0) shared))).
  unfold shared.
  apply reachable_after; [|exact I]. apply reachable_after; [|exact I].
  apply reachable_after; [|exact I]. apply reachable_init.
Defined.

(** C1 at a listing whose donor is no user.  Alice, the donor, updates her
    listing with the body [{ donor: 999 }], an id that no user has; the
    listing stays available.  Bob's claim of it is answered 500 and nothing
    is stored. *)
Lemma claim_spec_witness :
  reachable orphaned
  /\ foods orphaned !! 0%N
     = Some (Food.mk "Bread" EmptyString EmptyString "12 Main St" None None
                     available 999 None 86400000 0 0)
  /\ populate 999 = None
  /\ run (claim bob 0) orphaned
     = (orphaned, Some (res 500 (JMessage "Server error"))).
Proof.
  split; [|split; [|split]].
  - unfold orphaned, shared.
    apply reachable_after; [|exact I]. apply reachable_after; [|exact I].
    apply reachable_init.
  - vm_compute. reflexivity.
  - vm_compute. reflexivity.
  - generalize (claim_spec bob 0 orphaned). vm_compute. exact (fun claimed => claimed).
Defined.

(** The other handlers compare the stored reference and serve that listing:
    a get answers 200 with it, and Alice, no longer its donor, is refused
    with 403 when she completes or deletes it. *)
Example orphaned_listing_elsewhere :
  code <$> (run (get 0) orphaned).2 = Some 200%nat
  /\ code <$> (run (complete alice 0) orphaned).2 = Some 403%nat
  /\ code <$> (run (deleteFood alice 0) orphaned).2 = Some 403%nat.
Proof. repeat split; vm_compute; reflexivity. Qed.

(** C3, witnessed: Bob and Carol both claim Alice's bread. *)
Lemma concurrent_claims_both_succeed_witness :
  exists db' food1 food2,
    interleave both_load_first (claim bob 0) (claim carol 0) shared
    = (db', Ret (res 200 (JFood (0%N, food1))), Ret (res 200 (JFood (0%N, food2))))
    /\ Food.claimedBy food1 = Some (User._id bob)
    /\ Food.claimedBy food2 = Some (User._id carol)
    /\ foods db' !! 0%N = Some food2
    /\ length (notifications db') = (length (notifications shared) + 2)%nat.
Proof.
  apply (concurrent_claims_both_succeed bob carol 0 shared bread_listing).
  - vm_compute. reflexivity.
  - reflexivity.
  - exists alice. vm_compute. reflexivity.
  - vm_compute. discriminate.
  - vm_compute. discriminate.
Defined.

(** C4: a completion that notifies nobody.  The listing that Alice marked
    claimed through an update records no claimer; her complete is answered
    200, the listing becomes completed, and no notification is created. *)
Lemma complete_without_claimer_notifies_nobody :
  reachable marked
  /\ foods marked !! 0%N = Some (Food.set_status claimed bread_listing)
  /\ (run (complete alice 0) marked).2
     = Some (res 200 (JFood (0%N, Food.set_status completed bread_listing)))
  /\ notifications (run (complete alice 0) marked).1 = [].
Proof.
  split; [exact marked_reachable|]. split; [exact marked_listing|].
  split; vm_compute; reflexivity.
Qed.

(** C5, witnessed: Alice may not claim her own bread, and nothing changes. *)
Lemma failed_transition_changes_nothing_witness :
  let db' := (run (claim alice 0) shared).1 in
  let reply := res 400 (JMessage "You cannot claim your own food") in
  db' = shared
  /\ foods db' !! 0%N = foods shared !! 0%N
  /\ notifications db' = notifications shared
  /\ code reply ∈ [400; 403; 404; 500]%nat.
Proof.
  apply (failed_transition_changes_nothing alice 0 shared
           (run (claim alice 0) shared).1
           (res 400 (JMessage "You cannot claim your own food"))).
  - left. vm_compute. reflexivity.
  - vm_compute. discriminate.
Defined.

(** C6: two creates that are not as the claim says.  A name of 101
    characters is neither missing nor empty, and the create is answered 500
    with nothing stored.  And a create whose save comes one millisecond
    after the listing was built stores a listing whose expiresAt is not its
    createdAt plus 24 hours. *)
Lemma create_long_name_and_slow_save :
  (JS.truthy (Body.name long_bread) = true
   /\ JS.truthy (Body.address long_bread) = true
   /\ String.length long_name = 101%nat
   /\ run (create alice long_bread None 0) init
      = (init, Some (res 500 (JMessage "Server error creating food listing"))))
  /\ exists db' food,
       run (create alice bread None 1) init
       = (db', Some (res 201 (JFood (0%N, food))))
       /\ Food.createdAt food = 1
       /\ Food.expiresAt food = 86400000
       /\ Food.expiresAt food <> Food.createdAt food + 86400000.
Proof.
  split; [repeat split; vm_compute; reflexivity|].
  eexists _, _. split; [vm_compute; reflexivity|]. simpl.
  split; [done|]. split; [done|]. discriminate.
Qed.

(** C10: a status outside the enum is not written.  Alice's update with the
    body [{ status: "bogus" }] is answered 500 and her listing stays as it
    was. *)
Lemma update_bogus_status_not_written :
  foods shared !! 0%N = Some bread_listing
  /\ Food.donor bread_listing = User._id alice
  /\ run (update alice 0 (status_only "bogus") None) shared
     = (shared, Some server_error).
Proof. repeat split; vm_compute; reflexivity. Qed.

(** C10, witnessed: Alice's update with [{ status: "claimed" }]. *)
Lemma update_by_donor_witness :
  match castUpdate (updates (status_only "claimed") None) with
  | Some u =>
      let food' := applyUpdate u (clock shared) bread_listing in
      run (update alice 0 (status_only "claimed") None) shared
      = (mkDB (<[0%N := food']> (foods shared)) (notifications shared)
              (fresh shared) (clock shared),
         Some (res 200 (JFood (0%N, food'))))
      /\ written (updates (status_only "claimed") None) bread_listing food'
  | None =>
      run (update alice 0 (status_only "claimed") None) shared
      = (shared, Some server_error)
  end.
Proof.
  apply (update_by_donor alice 0 (status_only "claimed") None shared bread_listing).
  - vm_compute. reflexivity.
  - reflexivity.
Defined.

(** ** More of the scenario *)

Lemma shared_reachable (allowed : Request -> Prop) :
  allowed (PostFood alice bread None 0) -> reachable_by allowed shared.
Proof. intros Hr. unfold shared. apply reachable_after; [apply reachable_init|done]. Qed.

(** Bob's claim of the bread, as it is stored and answered. *)
Lemma bob_claims :
  run (claim bob 0) shared
  = (after (PostClaim bob 0) shared,
     Some (res 200 (JFood (0%N, Food.set_claimedBy (Some 101%N)
                                  (Food.set_status claimed bread_listing))))).
Proof. vm_compute. reflexivity. Qed.

(** A listing handed back as available can be claimed again: the
    refusals of further claims rest on status being left to the
    transitions. *)
Example relisted_is_claimed_again :
  let relisted :=
    after (PutFood alice 0 (status_only "available") None)
          (after (PostClaim bob 0) shared) in
  code <$> (run (claim carol 0) relisted).2 = Some 200%nat.
Proof. vm_compute. reflexivity. Qed.

(** X1, witnessed: Alice's bread, once created, is served. *)
Lemma created_listing_is_served_witness :
  run (get 0) shared = (shared, Some (res 200 (JFood (0%N, bread_listing))))
  /\ (exists l, run listAvailable shared = (shared, Some (res 200 (JFoods l)))
                /\ (0%N, bread_listing) ∈ l)
  /\ (exists l, run (myFood alice) shared
                = (shared, Some (users_res 200 (UFoods l)))
                /\ (0%N, bread_listing) ∈ l).
Proof.
  apply (created_listing_is_served alice bread None 0 init shared 0 bread_listing).
  vm_compute. reflexivity.
Defined.

(** X2, witnessed: Bob claims, five seconds later Alice completes, and then
    Carol's claim is refused. *)
Lemma claimed_only_once_witness :
  let later := after (PutComplete alice 0)
                     (advance 5000 (after (PostClaim bob 0) shared)) in
  run (claim carol 0) later
  = (later,
     Some match foods later !! 0%N with
          | Some _ => res 400 (JMessage "This food has already been claimed")
          | None => res 404 (JMessage "Food listing not found")
          end).
Proof.
  apply (claimed_only_once bob carol 0 shared (after (PostClaim bob 0) shared)
           (after (PutComplete alice 0)
                  (advance 5000 (after (PostClaim bob 0) shared)))
           (res 200 (JFood (0%N, Food.set_claimedBy (Some 101%N)
                                   (Food.set_status claimed bread_listing))))).
  - by apply shared_reachable.
  - exact bob_claims.
  - reflexivity.
  - apply reaches_after; [|exact I]. apply reaches_advance; [|lia].
    apply reaches_here.
Defined.

(** X3, witnessed: Bob claims, Alice completes a minute later. *)
Lemma claim_then_complete_witness :
  exists db2 f2 n,
    run (complete alice 0) (advance 60000 (after (PostClaim bob 0) shared))
    = (db2, Some (res 200 (JFood (0%N, f2))))
    /\ foods db2 !! 0%N = Some f2
    /\ Food.status f2 = completed
    /\ Food.claimedBy f2 = Some (User._id bob)
    /\ notifications db2 = notifications (after (PostClaim bob 0) shared) ++ [n]
    /\ Notification.user n = User._id bob
    /\ Notification.type n = food_completed
    /\ Notification.food n = Some 0%N
    /\ Notification.fromUser n = Some (User._id alice)
    /\ forall db3 user,
         reaches leaves_lifecycle_paths db2 db3 ->
         (exists refusal,
            run (claim user 0) db3 = (db3, Some refusal)
            /\ code refusal ∈ [400; 404]%nat)
         /\ (exists refusal,
               run (complete user 0) db3 = (db3, Some refusal)
               /\ code refusal ∈ [400; 403; 404]%nat).
Proof.
  apply (claim_then_complete bob alice 0 shared (after (PostClaim bob 0) shared)
           bread_listing
           (res 200 (JFood (0%N, Food.set_claimedBy (Some 101%N)
                                   (Food.set_status claimed bread_listing))))
           60000).
  - by apply shared_reachable.
  - exact shared_listing.
  - reflexivity.
  - exact bob_claims.
  - reflexivity.
Defined.

(** X4, witnessed: Bob's claim moves the bread from available to claimed. *)
Lemma status_moves_forward_witness :
  (Food.status (Food.set_claimedBy (Some 101%N)
                  (Food.set_status claimed bread_listing))
   = Food.status bread_listing
   \/ (exists user, PostClaim bob 0 = PostClaim user 0
         /\ Food.status bread_listing = available
         /\ Food.status (Food.set_claimedBy (Some 101%N)
                           (Food.set_status claimed bread_listing)) = claimed)
   \/ (exists user, PostClaim bob 0 = PutComplete user 0
         /\ Food.status bread_listing = claimed
         /\ Food.status (Food.set_claimedBy (Some 101%N)
                           (Food.set_status claimed bread_listing)) = completed))
  /\ (rank (Food.status bread_listing)
      <= rank (Food.status (Food.set_claimedBy (Some 101%N)
                              (Food.set_status claimed bread_listing)))
      <= rank (Food.status bread_listing) + 1)%nat.
Proof.
  apply (status_moves_forward (PostClaim bob 0) shared 0 bread_listing
           (Food.set_claimedBy (Some 101%N) (Food.set_status claimed bread_listing))).
  - by apply shared_reachable.
  - exact I.
  - exact shared_listing.
  - vm_compute. reflexivity.
Defined.

(** X5, witnessed: after Bob's claim nobody has claimed their own listing. *)
Lemma no_own_claim_reachable_witness :
  no_own_claim (after (PostClaim bob 0) shared).
Proof.
  apply (no_own_claim_reachable (after (PostClaim bob 0) shared)).
  apply reachable_after; [|exact I]. by apply shared_reachable.
Defined.

(** X6, witnessed: Bob's attempt to complete Alice's listing leaves it. *)
Lemma only_the_donor_writes_witness :
  foods (after (PutComplete bob 0) shared) !! 0%N = Some bread_listing
  \/ exists user,
       PutComplete bob 0 = PostClaim user 0
       /\ Food.status bread_listing = available
       /\ foods (after (PutComplete bob 0) shared) !! 0%N
          = Some (claimed_by user (clock shared) bread_listing).
Proof.
  apply (only_the_donor_writes (PutComplete bob 0) shared 0 bread_listing).
  - by apply shared_reachable.
  - exact shared_listing.
  - intros user [= <-]. vm_compute. discriminate.
Defined.

(** X7, witnessed: the stored bread is valid. *)
Lemma stored_listings_are_valid_witness : schema_valid bread_listing.
Proof.
  apply (stored_listings_are_valid shared 0 bread_listing).
  - by apply shared_reachable.
  - exact shared_listing.
Defined.

(** X13, witnessed: Bob's foodClaimed goes from 0 to 1. *)
Lemma claim_raises_foodClaimed_witness :
  foodClaimed (mkStats 0 1 0 0 0) = S (foodClaimed (mkStats 0 0 0 0 0))
  /\ foodShared (mkStats 0 1 0 0 0) = foodShared (mkStats 0 0 0 0 0)
  /\ completedDonations (mkStats 0 1 0 0 0) = completedDonations (mkStats 0 0 0 0 0)
  /\ completedPickups (mkStats 0 1 0 0 0) = completedPickups (mkStats 0 0 0 0 0)
  /\ totalCompleted (mkStats 0 1 0 0 0) = totalCompleted (mkStats 0 0 0 0 0).
Proof.
  apply (claim_raises_foodClaimed bob 0 shared (after (PostClaim bob 0) shared)
           bread_listing
           (res 200 (JFood (0%N, Food.set_claimedBy (Some 101%N)
                                   (Food.set_status claimed bread_listing))))).
  - exact shared_listing.
  - discriminate.
  - exact bob_claims.
  - reflexivity.
  - vm_compute. reflexivity.
  - vm_compute. reflexivity.
Defined.

(** X15, witnessed: an hour after it was built the soup has 23 hours
    left. *)
Lemma expiry_badge_of_created_witness :
  Food.createdAt soup_listing = clock init + Z.of_N 3
  /\ match Client.until (Some (Food.expiresAt soup_listing)) 3600000 with
     | Client.Expired => clock init + 86400000 <= 3600000
     | Client.HoursLeft h =>
         1 <= h <= 24 /\ (h = 24 <-> 3600000 = clock init)
         /\ 3600000 + h * 3600000 <= clock init + 86400000
     | Client.MinutesLeft m =>
         0 <= m < 60
         /\ clock init + 86400000 - 3600000 < 3600000 < clock init + 86400000
     | _ => False
     end
  /\ (Food.createdAt soup_listing + 86400000 <= 3600000 ->
      Client.until (Some (Food.expiresAt soup_listing)) 3600000 = Client.Expired).
Proof.
  apply (expiry_badge_of_created carol soup None 3 init
           (after (PostFood carol soup None 3) init) 0 soup_listing 3600000).
  - vm_compute. reflexivity.
  - simpl. lia.
Defined.


(** The card of the listing whose donor is no user offers Claim Food to
    Alice, who shared it, as to everybody. *)
Example orphaned_card :
  Client.actionButton (Some alice)
    (0%N, Food.mk "Bread" EmptyString EmptyString "12 Main St" None None
                  available 999 None 86400000 0 0)
    (populate 999)
  = Client.ClaimButton 0.
Proof. vm_compute. reflexivity. Qed.

(** X19, witnessed: Alice puts the bread back as she read it. *)
Lemma update_with_same_body_witness :
  run (update alice 0 (same_body bread_listing) None) shared
  = (mkDB (<[0%N := Food.set_updatedAt (clock shared) bread_listing]> (foods shared))
          (notifications shared) (fresh shared) (clock shared),
     Some (res 200 (JFood (0%N, Food.set_updatedAt (clock shared) bread_listing)))).
Proof.
  apply (update_with_same_body alice 0 shared bread_listing).
  - exact shared_listing.
  - unfold schema_valid.
    repeat split; try discriminate; try reflexivity; simpl; lia.
  - reflexivity.
Defined.
